(** * bookmark-ai-server: tag normalisation and AI analysis dispatch

    A shallow embedding of
    - the tag normalizer, required as [utils/tagNormalizer] ([normalizeTag],
      [findSimilarTag], [processTags]),
    - the provider dispatcher, required as [services/ai],
    - the two provider variants, [services/openai] and [services/claude],
    together with the properties the specification states about them.

    JavaScript strings are modelled by [string]; the model covers ASCII
    text: [toLowerCase] maps A-Z to a-z and leaves every other character
    alone, and the white space removed by [trim] is TAB, LF, VT, FF, CR and
    SPACE.  Ratings of the string-similarity package are rationals ([Q]). *)

From Stdlib Require Import String Ascii List Bool Arith Lia QArith.
Import ListNotations.
Close Scope Q_scope.
Open Scope string_scope.

(** ** JavaScript string primitives *)

Module JsString.

Definition lowerChar (c : ascii) : ascii :=
  let n := nat_of_ascii c in
  if (65 <=? n)%nat && (n <=? 90)%nat then ascii_of_nat (n + 32) else c.

(** [s.toLowerCase()] on ASCII text: A-Z become a-z.  Characters outside
    ASCII, some of which the code lowers to a longer sequence, are left as
    they are. *)
Fixpoint toLowerCase (s : string) : string :=
  match s with
  | EmptyString => EmptyString
  | String c s' => String (lowerChar c) (toLowerCase s')
  end.

(** The ASCII white space: TAB, LF, VT, FF, CR and SPACE.  The code's
    [trim] and [\s] also take white space outside ASCII. *)
Definition isWhiteSpace (c : ascii) : bool :=
  let n := nat_of_ascii c in
  ((9 <=? n)%nat && (n <=? 13)%nat) || (n =? 32)%nat.

Fixpoint trimStart (s : string) : string :=
  match s with
  | EmptyString => EmptyString
  | String c s' => if isWhiteSpace c then trimStart s' else s
  end.

Fixpoint trimEnd (s : string) : string :=
  match s with
  | EmptyString => EmptyString
  | String c s' =>
      match trimEnd s' with
      | EmptyString => if isWhiteSpace c then EmptyString else String c EmptyString
      | r => String c r
      end
  end.

(** [s.trim()] *)
Definition trim (s : string) : string := trimEnd (trimStart s).

(** [s.substring(0, n)] and [s.slice(0, n)] for [0 <= n] *)
Fixpoint take (n : nat) (s : string) : string :=
  match n, s with
  | O, _ => EmptyString
  | _, EmptyString => EmptyString
  | S n', String c s' => String c (take n' s')
  end.

(** [s.slice(n)] for [0 <= n] *)
Fixpoint drop (n : nat) (s : string) : string :=
  match n, s with
  | O, _ => s
  | _, EmptyString => EmptyString
  | S n', String _ s' => drop n' s'
  end.

(** [s.startsWith(p)] *)
Definition startsWith (s p : string) : bool := String.prefix p s.

(** [s.endsWith(suf)] *)
Definition endsWith (s suf : string) : bool :=
  (String.length suf <=? String.length s)%nat
  && String.eqb (drop (String.length s - String.length suf) s) suf.

(** [s.includes(sub)] *)
Fixpoint includes (s sub : string) : bool :=
  if String.prefix sub s then true
  else match s with
       | EmptyString => false
       | String _ s' => includes s' sub
       end.

(** [s.replace(pat, rep)] with a string pattern: the first occurrence only *)
Fixpoint replace (s pat rep : string) : string :=
  if String.prefix pat s then rep ++ drop (String.length pat) s
  else match s with
       | EmptyString => EmptyString
       | String c s' => String c (replace s' pat rep)
       end.

(** [s.slice(0, -k)] for [0 < k] *)
Definition sliceEnd (s : string) (k : nat) : string := take (String.length s - k) s.

(** JavaScript truthiness of a string value: [""] is falsy *)
Definition truthy (s : string) : bool := negb (String.eqb s "").

(** Truthiness of a field that holds a string or is [undefined] *)
Definition truthyField (v : option string) : bool :=
  match v with
  | Some s => truthy s
  | None => false
  end.

(** [array.includes(x)] on an array of strings *)
Definition Array_includes (array : list string) (x : string) : bool :=
  existsb (String.eqb x) array.

(** The double quote and the line feed *)
Definition dq : string := String (ascii_of_nat 34) EmptyString.
Definition LF : string := String (ascii_of_nat 10) EmptyString.

End JsString.

Import JsString.

(** A JavaScript call either returns a value or throws. *)
Inductive Completion (A : Type) : Type :=
| Return (a : A)
| Throw (message : string).
Arguments Return {A} a.
Arguments Throw {A} message.

Definition bind {A B : Type} (c : Completion A) (k : A -> Completion B) : Completion B :=
  match c with
  | Return a => k a
  | Throw m => Throw m
  end.

Notation "x <- c ;; k" := (bind c (fun x => k))
  (at level 61, c at next level, right associativity).

(** ** The string-similarity package (a dependency of the repository) *)

Module StringSimilarity.

Record Match : Type := { target : string; rating : Q }.

Fixpoint removeWhiteSpace (s : string) : string :=
  match s with
  | EmptyString => EmptyString
  | String c s' => if isWhiteSpace c then removeWhiteSpace s'
                   else String c (removeWhiteSpace s')
  end.

Fixpoint bigrams (s : string) : list string :=
  match s with
  | String a (String b _ as s') => String a (String b EmptyString) :: bigrams s'
  | _ => []
  end.

(** The bigram counter of the first string, as a map from bigram to count *)
Fixpoint get (m : list (string * nat)) (k : string) : nat :=
  match m with
  | [] => 0
  | (k', n) :: m' => if String.eqb k k' then n else get m' k
  end.

Fixpoint set (m : list (string * nat)) (k : string) (v : nat) : list (string * nat) :=
  match m with
  | [] => [(k, v)]
  | (k', n) :: m' => if String.eqb k k' then (k', v) :: m' else (k', n) :: set m' k v
  end.

Definition countBigrams (s : string) : list (string * nat) :=
  fold_left (fun m bg => set m bg (S (get m bg))) (bigrams s) [].

Definition intersectionSize (firstBigrams : list (string * nat)) (second : string) : nat :=
  snd (fold_left (fun '(m, size) bg =>
                    match get m bg with
                    | O => (m, size)
                    | S n => (set m bg n, S size)
                    end)
                 (bigrams second) (firstBigrams, 0)).

(** Modelled from the spec: the similarity score of section 4.1, "a
    string-similarity score (bigram/Dice-coefficient-style comparison, range
    [0,1])"; the package that computes it is a dependency whose code is not
    among the repository's sources.  White space
    is ignored, equal strings rate 1, a string shorter than two characters
    rates 0 against any different string, and otherwise the rating is twice
    the number of shared bigrams over the number of bigrams of both. *)
Definition compareTwoStrings (first second : string) : Q :=
  let first := removeWhiteSpace first in
  let second := removeWhiteSpace second in
  if String.eqb first second then 1%Q
  else if (String.length first <? 2)%nat || (String.length second <? 2)%nat then 0%Q
  else
    (Z.of_nat (2 * intersectionSize (countBigrams first) second)
     # Pos.of_nat (String.length first + String.length second - 2))%Q.

Section FindBestMatch.

Variable compare : string -> string -> Q.

Definition better (mainString : string) (best : Match) (currentTarget : string) : Match :=
  let currentRating := compare mainString currentTarget in
  if Qle_bool currentRating (rating best) then best
  else {| target := currentTarget; rating := currentRating |}.

(** Modelled from the spec: step 2 of section 4.1, "select the
    maximum-scoring existing tag", whose "underlying comparison is undefined
    over an empty set": the helper raises on an empty target list and
    otherwise returns the first target of maximal rating.  The package is a
    dependency whose code is not among the repository's sources. *)
Definition findBestMatch (mainString : string) (targetStrings : list string)
  : Completion Match :=
  match targetStrings with
  | [] => Throw "Bad arguments: First argument should be a string, second should be an array of strings"
  | t :: ts =>
      Return (fold_left (better mainString) ts
                {| target := t; rating := compare mainString t |})
  end.

End FindBestMatch.

End StringSimilarity.

(** ** utils/tagNormalizer *)

Module TagNormalizer.

(** [COMMON_VARIATIONS], each table in the order [Object.entries] lists it *)
Definition COMMON_VARIATIONS_plurals : list (string * string) :=
  [ ("s", "");      (* images -> image *)
    ("es", "");     (* classes -> class *)
    ("ies", "y") ]. (* technologies -> technology *)

Definition COMMON_VARIATIONS_prefixes : list (string * string) :=
  [ ("the ", ""); ("a ", ""); ("an ", "") ].

Definition PRESERVED_TERMS : list string :=
  [ "aws"; "apis"; "dns"; "ios"; "css"; "sass"; "less"; "news"; "devops";
    "kubernetes"; "tensorflow" ].

Definition has (set : list string) (s : string) : bool :=
  existsb (String.eqb s) set.

(** One round of the prefix loop *)
Definition stripPrefix (normalized : string) (entry : string * string) : string :=
  let '(prefix, replacement) := entry in
  if startsWith normalized prefix then replace normalized prefix replacement
  else normalized.

(** One round of the plural loop *)
Definition stripPlural (normalized : string) (entry : string * string) : string :=
  let '(suffix, replacement) := entry in
  if endsWith normalized suffix && (String.length suffix <? String.length normalized)%nat then
    let singular := sliceEnd normalized (String.length suffix) ++ replacement in
    if (2 <=? String.length singular)%nat then singular else normalized
  else normalized.

Definition normalizeTag (tag : string) : string :=
  if negb (truthy tag) then ""
  else
    let normalized := trim (toLowerCase tag) in
    if has PRESERVED_TERMS normalized then normalized
    else
      let normalized := fold_left stripPrefix COMMON_VARIATIONS_prefixes normalized in
      fold_left stripPlural COMMON_VARIATIONS_plurals normalized.


(** The threshold [findSimilarTag] takes by default: 0.85 *)
Definition defaultSimilarityThreshold : Q := (85 # 100)%Q.

(** [new Set()] keeps insertion order, and [Array.from] reads it back *)
Definition Set_add (s : list string) (x : string) : list string :=
  if has s x then s else (s ++ [x])%list.

Section Similarity.

(** [stringSimilarity.compareTwoStrings], the rating behind [findBestMatch] *)
Variable compare : string -> string -> Q.

(** The value is [Some m] for a string [m] and [None] for [null];
    [exactMatch] is [None] when [Array.find] returns [undefined]. *)
Definition findSimilarTag (newTag : string) (existingTags : list string)
    (similarityThreshold : Q) : Completion (option string) :=
  let normalizedNew := normalizeTag newTag in
  (* First check for exact matches after normalization *)
  let exactMatch :=
    find (fun tag => String.eqb (normalizeTag tag) normalizedNew) existingTags in
  if truthyField exactMatch then Return exactMatch
  else
    (* Then check for similar tags *)
    matches <- StringSimilarity.findBestMatch compare normalizedNew existingTags ;;
    if Qle_bool similarityThreshold (StringSimilarity.rating matches)
    then Return (Some (StringSimilarity.target matches))
    else Return None.

(** The body of the [for ... of] loop of [processTags], with the set built
    so far *)
Fixpoint processTags_loop (newTags existingTags processedTags : list string)
  : Completion (list string) :=
  match newTags with
  | [] => Return processedTags
  | tag :: rest =>
      let normalizedTag := normalizeTag tag in
      (* Skip empty tags *)
      if negb (truthy normalizedTag) then
        processTags_loop rest existingTags processedTags
      else
        (* Check for similar existing tags *)
        similarTag <- findSimilarTag normalizedTag existingTags
                        defaultSimilarityThreshold ;;
        match similarTag with
        | Some m =>
            if truthy m
            then (* Use the existing similar tag *)
                 processTags_loop rest existingTags (Set_add processedTags m)
            else processTags_loop rest existingTags (Set_add processedTags normalizedTag)
        | None =>
            (* Use the normalized version of the new tag *)
            processTags_loop rest existingTags (Set_add processedTags normalizedTag)
        end
  end.

Definition processTags (newTags existingTags : list string)
  : Completion (list string) :=
  processTags_loop newTags existingTags [].

End Similarity.

End TagNormalizer.

Import TagNormalizer.

(** ** The provider boundary shared by services/openai and services/claude *)

Module Provider.

Inductive Variant : Type := OpenAI | Claude.

Record Message : Type := { role : string; content : string }.

(** The argument of [createChatCompletion] (OpenAI, which has no [system]
    field) and of [messages.create] (Claude) *)
Record Request : Type := {
  model : string;
  max_tokens : nat;
  temperature : Q;
  system : option string;
  messages : list Message
}.

Record Client : Type := { variant : Variant; apiKey : string }.

Record Call : Type := { client : Client; request : Request }.

(** The value [JSON.parse] returns *)
#[local] Unset Elimination Schemes.
Inductive Json : Type :=
| JNull
| JBool (b : bool)
| JNumber (q : Q)
| JString (s : string)
| JArray (elements : list Json)
| JObject (fields : list (string * Json)).
#[local] Set Elimination Schemes.

(** An asynchronous operation run to its settlement: whether its promise is
    fulfilled ([Return]) or rejected ([Throw]), and the provider calls it
    issued, in the order they were issued. *)
Definition Async (A : Type) : Type := (Completion A * list Call)%type.

(** [promise.catch(handler)] *)
Definition catch {A : Type} (p : Async A) (handler : string -> A) : Async A :=
  match p with
  | (Return a, log) => (Return a, log)
  | (Throw m, log) => (Return (handler m), log)
  end.

(** [Promise.all([p1, p2, p3])]: the three operations have all been started
    by the time the array is built; the promise is fulfilled with the three
    values when all are fulfilled and rejected when one is rejected. *)
Definition Promise_all3 {A B C : Type} (p1 : Async A) (p2 : Async B) (p3 : Async C)
  : Async (A * B * C) :=
  (match fst p1, fst p2, fst p3 with
   | Return a, Return b, Return c => Return (a, b, c)
   | Throw m, _, _ => Throw m
   | _, Throw m, _ => Throw m
   | _, _, Throw m => Throw m
   end,
   (snd p1 ++ snd p2 ++ snd p3)%list).

Record AnalysisResult : Type := {
  summary : string;
  tags : list string;
  category : string
}.

(** [tags.map(tag => tag.toLowerCase().trim())] on the parsed value: a
    TypeError unless the value is an array of strings *)
Fixpoint lowerTrimEach (elements : list Json) : Completion (list string) :=
  match elements with
  | [] => Return []
  | JString tag :: rest =>
      tail <- lowerTrimEach rest ;; Return (trim (toLowerCase tag) :: tail)
  | _ :: _ => Throw "tag.toLowerCase is not a function"
  end.

Definition lowerTrimAll (parsed : Json) : Completion (list string) :=
  match parsed with
  | JArray elements => lowerTrimEach elements
  | _ => Throw "tags.map is not a function"
  end.

(** The predicate of [.filter(tag => ...)], over the variant's [genericTerms] *)
Definition keepTag (genericTerms : list string) (tag : string) : bool :=
  truthy tag
  && (0 <? String.length tag)%nat
  && negb (Array_includes genericTerms (toLowerCase tag))
  && (String.length tag <=? 50)%nat.

(** The content of the request's message of role [user] *)
Definition userText (r : Request) : string :=
  match find (fun m => String.eqb (role m) "user") (messages r) with
  | Some m => content m
  | None => ""
  end.

End Provider.

Import Provider.

(** ** services/openai *)

Module OpenAIService.

Definition createOpenAIClient (apiKey : string) : Completion Client :=
  if negb (truthy apiKey)
  then Throw "OpenAI API key is required. Please add it in your account settings."
  else Return {| variant := OpenAI; apiKey := apiKey |}.

Definition categorySystemPrompt : string :=
  "You are a content classifier that categorizes web content into one of three categories: 'Article', 'Video', or 'Research'. Return ONLY the category name as a single word, no explanation or additional text. Use these guidelines:"
  ++ LF ++ "- 'Video': For video content, video sharing sites, or video-focused pages"
  ++ LF ++ "- 'Research': For academic papers, scientific articles, research publications, or technical documentation"
  ++ LF ++ "- 'Article': For general articles, blog posts, news, and other text-based content".

Definition tagsSystemPrompt : string :=
  "You are a tag generator for web content. Your task is to generate 3-5 simple, focused tags that best categorize the content."
  ++ LF
  ++ LF ++ "Rules:"
  ++ LF ++ "1. Return ONLY a JSON array of lowercase strings, no other text"
  ++ LF ++ "2. Keep tags as simple as possible:"
  ++ LF ++ "   - For names, use only the person's name (e.g., " ++ dq ++ "elon musk" ++ dq ++ " not " ++ dq ++ "elon musk twitter" ++ dq ++ ")"
  ++ LF ++ "   - For concepts, use the core term (e.g., " ++ dq ++ "immigration" ++ dq ++ " not " ++ dq ++ "immigration policy" ++ dq ++ ")"
  ++ LF ++ "   - For companies, use the company name (e.g., " ++ dq ++ "apple" ++ dq ++ " not " ++ dq ++ "apple earnings" ++ dq ++ ")"
  ++ LF ++ "3. Each tag should be 1-2 words maximum, rarely 3 if absolutely necessary"
  ++ LF ++ "4. Never use generic terms like 'other', 'miscellaneous', 'general'"
  ++ LF ++ "5. Focus on the main topics, people, or organizations mentioned"
  ++ LF ++ "6. Avoid combining multiple concepts into one tag"
  ++ LF
  ++ LF ++ "Example good response: [" ++ dq ++ "artificial intelligence" ++ dq ++ ", " ++ dq ++ "microsoft" ++ dq ++ ", " ++ dq ++ "sam altman" ++ dq ++ "]"
  ++ LF ++ "Example bad response: [" ++ dq ++ "sam altman openai departure" ++ dq ++ ", " ++ dq ++ "technology news" ++ dq ++ ", " ++ dq ++ "ai ethics debate" ++ dq ++ "]"
  ++ LF
  ++ LF ++ "The response must be valid JSON and contain only the array of tags.".

Definition summarySystemPrompt : string :=
  "You are a helpful assistant that generates concise summaries of web content. Generate a brief, informative summary in 2-3 sentences.".

Definition genericTerms : list string :=
  ["other"; "miscellaneous"; "general"; "misc"; "various"; "article"; "content"].

Section World.

(** What the provider answers to a call: the promise of the call is rejected
    ([Throw]), or fulfilled with a response whose message text is [Some text],
    or fulfilled with a response that has no text where the code reads it
    ([None]). *)
Variable respond : Call -> Completion (option string).

(** [JSON.parse]: [None] when it raises a SyntaxError *)
Variable JSON_parse : string -> option Json.

Definition determineCategory (content url : string) (openaiClient : Client)
  : Async string :=
  (* Quick URL-based category detection *)
  let urlLower := toLowerCase url in
  if includes urlLower "youtube.com"
     || includes urlLower "vimeo.com"
     || includes urlLower "dailymotion.com"
     || includes urlLower "video"
  then (Return "Video", [])
  else if includes urlLower "arxiv.org"
          || includes urlLower "research"
          || includes urlLower "paper"
          || includes urlLower "doi.org"
  then (Return "Research", [])
  else
    (* If no quick match, use AI to determine category *)
    let call :=
      {| client := openaiClient;
         request :=
           {| model := "gpt-4";
              messages :=
                [ {| role := "system"; content := categorySystemPrompt |};
                  {| role := "user";
                     content := "URL: " ++ url ++ LF ++ LF ++ "Content: "
                                ++ take 1000 content |} ];
              temperature := (1 # 10)%Q;
              max_tokens := 10;
              system := None |} |} in
    (Return
       match respond call with
       | Return (Some text) =>
           let category := trim text in
           (* Ensure the category is one of our valid options *)
           if Array_includes ["Article"; "Video"; "Research"] category
           then category
           else "Article"
       | _ => "Article" (* Default to Article if there's an error *)
       end,
     [call]).

Definition generateTags (content url : string) (openaiClient : Client)
  : Async (list string) :=
  let call :=
    {| client := openaiClient;
       request :=
         {| model := "gpt-4";
            messages :=
              [ {| role := "system"; content := tagsSystemPrompt |};
                {| role := "user";
                   content := "URL: " ++ url ++ LF ++ LF ++ "Content: "
                              ++ take 1000 content |} ];
            temperature := (3 # 10)%Q;
            max_tokens := 100;
            system := None |} |} in
  (Return
     match respond call with
     | Return (Some tagContent) =>
         match JSON_parse tagContent with
         | Some parsed =>
             match lowerTrimAll parsed with
             | Return cleaned => filter (keepTag genericTerms) cleaned
             | Throw _ => []
             end
         | None => []
         end
     | _ => [] (* Return empty array instead of throwing *)
     end,
   [call]).

Definition generateSummary (content : string) (openaiClient : Client)
  : Async string :=
  let call :=
    {| client := openaiClient;
       request :=
         {| model := "gpt-4";
            messages :=
              [ {| role := "system"; content := summarySystemPrompt |};
                {| role := "user"; content := take 1000 content |} ];
            temperature := (3 # 10)%Q;
            max_tokens := 150;
            system := None |} |} in
  (Return
     match respond call with
     | Return (Some text) =>
         let summary := trim text in
         if truthy summary then summary else "No summary available."
     | _ => "Summary generation failed. Please try again later."
     end,
   [call]).

(** [analyzeContent] reaches the three sub-operations through [this], the
    module's export object; [analyzeContentWith] is its body over whatever
    that object holds. *)
Section SubOperations.

Variable this_generateSummary : string -> Client -> Async string.
Variable this_generateTags : string -> string -> Client -> Async (list string).
Variable this_determineCategory : string -> string -> Client -> Async string.

Definition analyzeContentWith (url content userApiKey : string)
  : Async AnalysisResult :=
  match createOpenAIClient userApiKey with
  | Throw _ =>
      (* Return default values instead of throwing *)
      (Return {| summary := "Summary generation failed. Please try again later.";
                 tags := [];
                 category := "Article" |}, [])
  | Return openai =>
      (* Run all analysis in parallel for better performance *)
      let all :=
        Promise_all3
          (catch (this_generateSummary content openai)
                 (fun _ => "Summary generation failed. Please try again later."))
          (catch (this_generateTags content url openai) (fun _ => []))
          (catch (this_determineCategory content url openai) (fun _ => "Article")) in
      match all with
      | (Return (summaryResult, tagsResult, categoryResult), log) =>
          (Return {| summary := summaryResult;
                     tags := tagsResult;
                     category := categoryResult |}, log)
      | (Throw _, log) =>
          (Return {| summary := "Summary generation failed. Please try again later.";
                     tags := [];
                     category := "Article" |}, log)
      end
  end.

End SubOperations.

Definition analyzeContent (url content userApiKey : string) : Async AnalysisResult :=
  analyzeContentWith generateSummary generateTags determineCategory
    url content userApiKey.

End World.

End OpenAIService.

(** ** services/claude *)

Module ClaudeService.

Definition createClaudeClient (apiKey : string) : Completion Client :=
  if negb (truthy apiKey)
  then Throw "Claude API key is required. Please add it in your account settings."
  else Return {| variant := Claude; apiKey := apiKey |}.

Definition categorySystemPrompt : string :=
  "You are a content classifier that categorizes web content into one of three categories: 'Article', 'Video', or 'Research'. Return ONLY the category name as a single word, no explanation or additional text.".

Definition tagsSystemPrompt (isYouTube : bool) : string :=
  if isYouTube
  then "You are analyzing a YouTube video. Generate 3-5 accurate tags that represent the main topics, people, and organizations discussed in the video. Rules:"
  ++ LF ++ "               1. Return ONLY a JSON array of lowercase strings, no other text"
  ++ LF ++ "               2. Focus on the actual video content and discussion topics"
  ++ LF ++ "               3. Include relevant people, companies, or organizations mentioned"
  ++ LF ++ "               4. Keep tags simple and focused (1-2 words, rarely 3 if needed)"
  ++ LF ++ "               5. Avoid generic terms like 'youtube', 'video', 'interview'"
  ++ LF ++ "               Example good response: [" ++ dq ++ "artificial intelligence" ++ dq ++ ", " ++ dq ++ "microsoft" ++ dq ++ ", " ++ dq ++ "sam altman" ++ dq ++ "]"
  else "You are a tag generator for web content. Generate 3-5 simple, focused tags that best categorize the content."
  ++ LF ++ "               Rules:"
  ++ LF ++ "               1. Return ONLY a JSON array of lowercase strings, no other text"
  ++ LF ++ "               2. Keep tags simple and focused (1-2 words, rarely 3 if needed)"
  ++ LF ++ "               3. Focus on main topics, people, or organizations"
  ++ LF ++ "               4. Avoid generic terms like 'article', 'other', 'miscellaneous'"
  ++ LF ++ "               Example good response: [" ++ dq ++ "climate change" ++ dq ++ ", " ++ dq ++ "united nations" ++ dq ++ ", " ++ dq ++ "paris agreement" ++ dq ++ "]".

Definition summarySystemPrompt (isYouTube : bool) : string :=
  if isYouTube
  then "You are analyzing a YouTube video. Generate a concise 2-3 sentence summary that accurately captures the main points discussed in the video. Focus on the key topics, insights, and any significant conclusions or takeaways. Be specific and avoid generic descriptions."
  else "You are a helpful assistant that generates concise summaries of web content. Generate a brief, informative summary in 2-3 sentences that captures the main points and key takeaways.".

Definition genericTerms : list string :=
  ["other"; "miscellaneous"; "general"; "misc"; "various"; "article"; "content";
   "video"; "youtube"].

Section World.

Variable respond : Call -> Completion (option string).
Variable JSON_parse : string -> option Json.

Definition determineCategory (content url : string) (claudeClient : Client)
  : Async string :=
  (* Quick URL-based category detection *)
  let urlLower := toLowerCase url in
  if includes urlLower "youtube.com"
     || includes urlLower "youtu.be"
     || includes urlLower "vimeo.com"
     || includes urlLower "dailymotion.com"
  then (Return "Video", [])
  else if includes urlLower "arxiv.org"
          || includes urlLower "research"
          || includes urlLower "paper"
          || includes urlLower "doi.org"
  then (Return "Research", [])
  else
    (* If no quick match, use Claude to determine category *)
    let call :=
      {| client := claudeClient;
         request :=
           {| model := "claude-3-opus-20240229";
              max_tokens := 10;
              temperature := (1 # 10)%Q;
              system := Some categorySystemPrompt;
              messages :=
                [ {| role := "user";
                     content := "URL: " ++ url ++ LF ++ LF ++ "Content: "
                                ++ take 2000 content |} ] |} |} in
    (Return
       match respond call with
       | Return (Some text) =>
           let category := trim text in
           if Array_includes ["Article"; "Video"; "Research"] category
           then category
           else "Article"
       | _ => "Article"
       end,
     [call]).

Definition generateTags (content url : string) (claudeClient : Client)
  : Async (list string) :=
  (* Determine if this is YouTube content *)
  let isYouTube :=
    includes (toLowerCase url) "youtube.com" || includes (toLowerCase url) "youtu.be" in
  let call :=
    {| client := claudeClient;
       request :=
         {| model := "claude-3-opus-20240229";
            max_tokens := 100;
            temperature := (3 # 10)%Q;
            system := Some (tagsSystemPrompt isYouTube);
            messages :=
              [ {| role := "user";
                   (* Use full content for better context *)
                   content := "URL: " ++ url ++ LF ++ LF ++ "Content: " ++ content |} ]
         |} |} in
  (Return
     match respond call with
     | Return (Some tagContent) =>
         match JSON_parse tagContent with
         | Some parsed =>
             match lowerTrimAll parsed with
             | Return cleaned => filter (keepTag genericTerms) cleaned
             | Throw _ => []
             end
         | None => []
         end
     | _ => []
     end,
   [call]).

Definition generateSummary (content url : string) (claudeClient : Client)
  : Async string :=
  (* Determine if this is YouTube content *)
  let isYouTube :=
    includes (toLowerCase url) "youtube.com" || includes (toLowerCase url) "youtu.be" in
  let call :=
    {| client := claudeClient;
       request :=
         {| model := "claude-3-opus-20240229";
            max_tokens := 150;
            temperature := (3 # 10)%Q;
            system := Some (summarySystemPrompt isYouTube);
            messages :=
              [ {| role := "user";
                   (* Use full content for better context *)
                   content := content |} ] |} |} in
  (Return
     match respond call with
     | Return (Some text) =>
         let summary := trim text in
         if truthy summary then summary else "No summary available."
     | _ => "Summary generation failed. Please try again later."
     end,
   [call]).

Section SubOperations.

Variable this_generateSummary : string -> string -> Client -> Async string.
Variable this_generateTags : string -> string -> Client -> Async (list string).
Variable this_determineCategory : string -> string -> Client -> Async string.

Definition analyzeContentWith (url content userApiKey : string)
  : Async AnalysisResult :=
  match createClaudeClient userApiKey with
  | Throw _ =>
      (Return {| summary := "Summary generation failed. Please try again later.";
                 tags := [];
                 category := "Article" |}, [])
  | Return claude =>
      (* Run all analysis in parallel for better performance *)
      let all :=
        Promise_all3
          (catch (this_generateSummary content url claude)
                 (fun _ => "Summary generation failed. Please try again later."))
          (catch (this_generateTags content url claude) (fun _ => []))
          (catch (this_determineCategory content url claude) (fun _ => "Article")) in
      match all with
      | (Return (summaryResult, tagsResult, categoryResult), log) =>
          (Return {| summary := summaryResult;
                     tags := tagsResult;
                     category := categoryResult |}, log)
      | (Throw _, log) =>
          (Return {| summary := "Summary generation failed. Please try again later.";
                     tags := [];
                     category := "Article" |}, log)
      end
  end.

End SubOperations.

Definition analyzeContent (url content userApiKey : string) : Async AnalysisResult :=
  analyzeContentWith generateSummary generateTags determineCategory
    url content userApiKey.

End World.

End ClaudeService.

(** ** services/ai *)

Module AiService.

(** The fields of the user record the dispatcher reads; a field is [None]
    when the document does not have it. *)
Record User : Type := {
  aiProvider : option string;
  openAiKey : option string;
  claudeKey : option string
}.

Definition orEmpty (v : option string) : string :=
  match v with
  | Some s => s
  | None => ""
  end.

Section World.

Variable respond : Call -> Completion (option string).
Variable JSON_parse : string -> option Json.

(** The [try] block *)
Definition dispatch (url content : string) (user : User) : Async AnalysisResult :=
  if negb (truthyField (aiProvider user))
  then (Throw "AI provider not specified", [])
  else if negb (truthyField (openAiKey user)) && negb (truthyField (claudeKey user))
  then (Throw "No API key found. Please add an API key in your account settings.", [])
  else if String.eqb (orEmpty (aiProvider user)) "openai"
  then
    if negb (truthyField (openAiKey user))
    then (Throw "OpenAI API key is required. Please add it in your account settings.", [])
    else OpenAIService.analyzeContent respond JSON_parse url content
           (orEmpty (openAiKey user))
  else if String.eqb (orEmpty (aiProvider user)) "claude"
  then
    if negb (truthyField (claudeKey user))
    then (Throw "Claude API key is required. Please add it in your account settings.", [])
    else ClaudeService.analyzeContent respond JSON_parse url content
           (orEmpty (claudeKey user))
  else (Throw "Invalid AI provider specified", []).

Definition analyzeContent (url content : string) (user : User) : Async AnalysisResult :=
  match dispatch url content user with
  | (Return result, log) => (Return result, log)
  | (Throw message, log) =>
      (Return {| summary := "AI analysis failed: " ++ message
                            ++ ". Please try again later.";
                 tags := [];
                 category := "Article" (* Default to Article if analysis fails *) |},
       log)
  end.

End World.

End AiService.

(** ** models/Bookmark: the pre-save hook *)

Module BookmarkModel.

(** The tags a document holds once the hook has run; the field is [None]
    when the document has no [tags]. *)
Definition preSaveTags (tags : option (list string)) : list string :=
  let tags := match tags with
              | Some l => l
              | None => []
              end in
  (* Ensure tags are unique and trimmed *)
  fold_left Set_add (map trim tags) [].

End BookmarkModel.

(** ** routes/bookmarks: the vocabulary handed to [processTags] *)

Module BookmarksRoute.

(** [Array.from(new Set(existingBookmarks.flatMap(b => b.tags || [])))], over
    the [tags] field of each bookmark of the user *)
Definition existingTagsOf (existingBookmarks : list (option (list string)))
  : list string :=
  fold_left Set_add
    (flat_map (fun tags => match tags with
                           | Some l => l
                           | None => []
                           end) existingBookmarks)
    [].

End BookmarksRoute.

(** ** utils/contentFetcher: the cleaning of the page text *)

Module ContentFetcher.

(** [s.replace(/[p]+/g, ' ')] for a class [p] of characters: every maximal
    run of characters of the class becomes one space.  [inRun] tells that the
    character before was in the class. *)
Fixpoint replaceRuns (p : ascii -> bool) (inRun : bool) (s : string) : string :=
  match s with
  | EmptyString => EmptyString
  | String c s' =>
      if p c then
        if inRun then replaceRuns p true s'
        else String " " (replaceRuns p true s')
      else String c (replaceRuns p false s')
  end.

Definition isLineFeed (c : ascii) : bool := (nat_of_ascii c =? 10)%nat.
Definition isTab (c : ascii) : bool := (nat_of_ascii c =? 9)%nat.

(** The statement [content = content.replace(...).replace(...).replace(...).trim()]
    of [fetchContent] *)
Definition cleanContent (content : string) : string :=
  trim
    (replaceRuns isTab false            (* Replace tabs with space *)
       (replaceRuns isLineFeed false    (* Replace newlines with space *)
          (replaceRuns isWhiteSpace false content))). (* Replace multiple spaces with single space *)

End ContentFetcher.

(** ** utils/urlCleaner *)

Module UrlCleaner.

(** What the code reads of a parsed URL *)
Record URL : Type := {
  protocol : string;
  hostname : string;
  pathname : string;
  searchParams_get : string -> option string
}.

(** [s.split(sep)[0]]: the part of [s] before the first [sep] *)
Fixpoint splitFirst (s : string) (sep : ascii) : string :=
  match s with
  | EmptyString => EmptyString
  | String c s' => if Ascii.eqb c sep then EmptyString else String c (splitFirst s' sep)
  end.

Section Platform.

(** [new URL(url)]: [None] when the constructor throws *)
Variable newURL : string -> option URL.

(** The value is [Some id] for a string and [None] for [null]. *)
Definition extractYouTubeVideoId (url : string) : option string :=
  match newURL url with
  | None => None
  | Some urlObj =>
      let hostname := toLowerCase (hostname urlObj) in
      (* Handle youtu.be format *)
      if String.eqb hostname "youtu.be" then
        Some (splitFirst (drop 1 (pathname urlObj)) "?")
      (* Handle youtube.com format *)
      else if String.eqb hostname "youtube.com" || String.eqb hostname "www.youtube.com" then
        if truthyField (searchParams_get urlObj "v")
        then searchParams_get urlObj "v"
        else None
      else None
  end.

Definition isYouTubeUrl (url : string) : bool :=
  match newURL url with
  | None => false
  | Some urlObj =>
      let hostname := toLowerCase (hostname urlObj) in
      String.eqb hostname "youtube.com"
      || String.eqb hostname "www.youtube.com"
      || String.eqb hostname "youtu.be"
  end.

(** The URL after the step "Add protocol if missing" *)
Definition withProtocol (url : string) : string :=
  if negb (startsWith url "http://") && negb (startsWith url "https://")
  then "https://" ++ url
  else url.

Definition cleanUrl (url : string) : string :=
  if negb (truthy url) then ""
  else
    (* Add protocol if missing *)
    let url := withProtocol url in
    (* Special handling for YouTube URLs *)
    let videoId := if isYouTubeUrl url then extractYouTubeVideoId url else None in
    if truthyField videoId then
      "https://youtu.be/" ++ match videoId with
                            | Some id => id
                            | None => ""
                            end
    else
      match newURL url with
      | None => url (* Return original URL if cleaning fails *)
      | Some urlObj =>
          (* Remove 'www.' if present *)
          let hostname :=
            if startsWith (hostname urlObj) "www." then drop 4 (hostname urlObj)
            else hostname urlObj in
          (* Reconstruct the URL without tracking parameters *)
          let cleanUrl := protocol urlObj ++ "//" ++ hostname ++ pathname urlObj in
          (* Remove trailing slash unless the path is just '/' *)
          if endsWith cleanUrl "/" && (1 <? String.length cleanUrl)%nat
          then sliceEnd cleanUrl 1
          else cleanUrl
      end.

End Platform.

End UrlCleaner.

(** ** Vocabulary of the statements *)

(** The rating used wherever a statement is evaluated on concrete tags *)
Definition dice : string -> string -> Q := StringSimilarity.compareTwoStrings.

(** The value a wrapped sub-operation contributes: its own when its promise
    is fulfilled, the fallback when it is rejected *)
Definition settle {A : Type} (c : Completion A) (fallback : A) : A :=
  match c with
  | Return a => a
  | Throw _ => fallback
  end.

(** A tag is canonical for a vocabulary when its normal form is non-empty and
    stable, and the tag is the first entry of the vocabulary with that normal
    form. *)
Definition canonicalIn (existingTags : list string) (t : string) : Prop :=
  normalizeTag t <> ""
  /\ normalizeTag (normalizeTag t) = normalizeTag t
  /\ find (fun e => String.eqb (normalizeTag e) (normalizeTag t)) existingTags = Some t.

(** A normal form that [normalizeTag] leaves alone: a preserved term, or a
    trimmed string that starts with none of the prefixes and either does not
    end in s or has fewer than three characters. *)
Definition stableForm (n : string) : Prop :=
  has PRESERVED_TERMS n = true
  \/ (trim n = n
      /\ (forall prefix, In prefix (map fst COMMON_VARIATIONS_prefixes) ->
                         startsWith n prefix = false)
      /\ (endsWith n "s" = false \/ String.length n < 3)).

(** What [analyzeContent] of a provider variant composes from its three
    wrapped sub-operations *)
Definition composed (s : Async string) (t : Async (list string)) (c : Async string)
  : Async AnalysisResult :=
  (Return {| summary := settle (fst s) "Summary generation failed. Please try again later.";
             tags := settle (fst t) [];
             category := settle (fst c) "Article" |},
   (snd s ++ snd t ++ snd c)%list).

(** The selected provider has no credential stored *)
Definition noCredentialForSelection (user : AiService.User) : Prop :=
  (AiService.aiProvider user = Some "openai"
   /\ truthyField (AiService.openAiKey user) = false)
  \/ (AiService.aiProvider user = Some "claude"
      /\ truthyField (AiService.claudeKey user) = false).

(** The provider selection is outside the enumerated set *)
Definition selectionOutsideEnum (user : AiService.User) : Prop :=
  AiService.aiProvider user <> Some "openai"
  /\ AiService.aiProvider user <> Some "claude".

(** The result the dispatcher returns when it fails at the top level *)
Definition defaulted (message : string) : AnalysisResult :=
  {| summary := "AI analysis failed: " ++ message ++ ". Please try again later.";
     tags := [];
     category := "Article" |}.

(** The video patterns each variant of [determineCategory] tests first *)
Definition videoPatterns (v : Variant) : list string :=
  match v with
  | OpenAI => ["youtube.com"; "vimeo.com"; "dailymotion.com"; "video"]
  | Claude => ["youtube.com"; "youtu.be"; "vimeo.com"; "dailymotion.com"]
  end.

Definition matchesAny (urlLower : string) (patterns : list string) : bool :=
  existsb (includes urlLower) patterns.

(** The texts of the user messages of the calls in a log *)
Definition userTexts (log : list Call) : list string :=
  map (fun c => userText (request c)) log.

(** A content of [n] characters *)
Fixpoint filler (n : nat) : string :=
  match n with
  | O => EmptyString
  | S n' => String "a" (filler n')
  end.

(** A provider that answers every call with the JSON text of the array that
    holds the one string [articles], and a [JSON.parse] that reads that text *)
Definition articlesJson : string := "[" ++ dq ++ "articles" ++ dq ++ "]".

Definition respondArticles (call : Call) : Completion (option string) :=
  Return (Some articlesJson).

Definition parseArticles (text : string) : option Json :=
  if String.eqb text articlesJson then Some (JArray [JString "articles"]) else None.

Definition sampleClient (v : Variant) : Client := {| variant := v; apiKey := "key" |}.

(** The last character of a string *)
Fixpoint lastChar (s : string) : option ascii :=
  match s with
  | EmptyString => None
  | String c EmptyString => Some c
  | String _ s' => lastChar s'
  end.

(** A string is blank-ended when it is empty or its last character is white
    space. *)
Definition endsBlank (s : string) : bool :=
  match lastChar s with
  | Some c => isWhiteSpace c
  | None => true
  end.

(** The research patterns both variants of [determineCategory] test second *)
Definition researchPatterns : list string :=
  ["arxiv.org"; "research"; "paper"; "doi.org"].

(** An analysis result every consumer can store: a summary that is not
    empty, a category of the enumeration, and tags that are non-empty, at
    most 50 characters long and not among the given generic terms *)
Definition wellFormed (genericTerms : list string) (r : AnalysisResult) : Prop :=
  summary r <> ""
  /\ Array_includes ["Article"; "Video"; "Research"] (category r) = true
  /\ (forall t, In t (tags r) ->
                t <> "" /\ String.length t <= 50 /\ ~ In t genericTerms).

(** A user who selected Claude and stores both keys, and the first provider
    call the dispatcher issues for that user *)
Definition claudeUser : AiService.User :=
  {| AiService.aiProvider := Some "claude";
     AiService.openAiKey := Some "sk-1";
     AiService.claudeKey := Some "ck-2" |}.

Definition firstCallFor (user : AiService.User) : Call :=
  hd {| client := sampleClient OpenAI;
        request := {| model := ""; max_tokens := 0; temperature := 0%Q;
                      system := None; messages := [] |} |}
     (snd (AiService.analyzeContent respondArticles parseArticles
             "https://example.com" "text" user)).

(** A text is single-spaced when each of its white-space characters is a
    space that follows a character which is not white space; [prevBlank]
    tells whether the text follows white space (or starts the line). *)
Fixpoint singleSpaced (prevBlank : bool) (s : string) : bool :=
  match s with
  | EmptyString => true
  | String c s' =>
      if isWhiteSpace c
      then Ascii.eqb c " " && negb prevBlank && singleSpaced true s'
      else singleSpaced false s'
  end.

(** A URL parser that reads every text as one YouTube watch page, and one
    that reads nothing *)
Definition watchPage (url : string) : option UrlCleaner.URL :=
  Some {| UrlCleaner.protocol := "https:";
          UrlCleaner.hostname := "www.youtube.com";
          UrlCleaner.pathname := "/watch";
          UrlCleaner.searchParams_get :=
            fun name => if String.eqb name "v" then Some "dQw4w9WgXcQ" else None |}.

Definition unparsable (url : string) : option UrlCleaner.URL := None.

(** A text of ASCII characters *)
Fixpoint isAsciiText (s : string) : bool :=
  match s with
  | EmptyString => true
  | String c s' => (nat_of_ascii c <? 128)%nat && isAsciiText s'
  end.

(** A provider that rejects every call with a budget of 100 tokens (the tag
    requests), answers the calls with a budget of 150 tokens (the summary
    requests) with a summary, and the others with a category *)
Definition respondFailingTags (call : Call) : Completion (option string) :=
  if (max_tokens (request call) =? 100)%nat then Throw "timeout"
  else if (max_tokens (request call) =? 150)%nat then Return (Some " A summary. ")
  else Return (Some "Research").

(** * Properties *)

(** ** Strings *)

Lemma truthy_true (s : string) : truthy s = true <-> s <> "".
Proof.
  unfold truthy. rewrite negb_true_iff. split.
  - intros H E. subst s. discriminate.
  - intros H. apply String.eqb_neq. exact H.
Qed.

Lemma truthy_false (s : string) : truthy s = false <-> s = "".
Proof.
  unfold truthy. rewrite negb_false_iff. apply String.eqb_eq.
Qed.

Lemma has_In (set : list string) (s : string) : has set s = true <-> In s set.
Proof.
  unfold has. rewrite existsb_exists. split.
  - intros [x [Hin Heq]]. apply String.eqb_eq in Heq. subst. exact Hin.
  - intros Hin. exists s. split; [exact Hin | apply String.eqb_refl].
Qed.

(** ** Tag normalisation and processing *)

Section TagProperties.

Variable compare : string -> string -> Q.

Lemma findBestMatch_nonempty (mainString : string) (targets : list string) :
  targets <> [] ->
  exists m, StringSimilarity.findBestMatch compare mainString targets = Return m.
Proof.
  destruct targets as [|t ts]; [congruence|]. intros _. simpl. eauto.
Qed.

Lemma findSimilarTag_returns (newTag : string) (existingTags : list string) (thr : Q) :
  existingTags <> [] ->
  exists r, findSimilarTag compare newTag existingTags thr = Return r.
Proof.
  intros Hne. unfold findSimilarTag.
  destruct (findBestMatch_nonempty (normalizeTag newTag) existingTags Hne) as [m Hm].
  rewrite Hm. cbn [bind].
  destruct (truthyField _); [eauto|]. destruct (Qle_bool _ _); eauto.
Qed.


Lemma Set_add_incl (s : list string) (x y : string) :
  In y s -> In y (Set_add s x).
Proof.
  unfold Set_add. destruct (has s x); [auto|]. intros H. apply in_or_app. auto.
Qed.

Lemma Set_add_In (s : list string) (x : string) : In x (Set_add s x).
Proof.
  unfold Set_add. destruct (has s x) eqn:E.
  - apply has_In. exact E.
  - apply in_or_app. right. left. reflexivity.
Qed.

Lemma Set_add_NoDup (s : list string) (x : string) :
  NoDup s -> NoDup (Set_add s x).
Proof.
  intros H. unfold Set_add. destruct (has s x) eqn:E; [exact H|].
  apply NoDup_app; [exact H | repeat constructor; intros [] | ].
  intros y Hy [Hx|[]]. subst y.
  apply has_In in Hy. congruence.
Qed.

Lemma Set_add_fresh (s : list string) (x : string) :
  ~ In x s -> Set_add s x = (s ++ [x])%list.
Proof.
  intros H. unfold Set_add. destruct (has s x) eqn:E; [|reflexivity].
  apply has_In in E. contradiction.
Qed.

Lemma processTags_loop_returns (existingTags : list string) :
  existingTags <> [] ->
  forall newTags acc,
  exists result, processTags_loop compare newTags existingTags acc = Return result.
Proof.
  intros Hne newTags. induction newTags as [|tag rest IH]; intros acc; simpl.
  - eauto.
  - destruct (truthy (normalizeTag tag)); simpl; [|apply IH].
    destruct (findSimilarTag_returns (normalizeTag tag) existingTags
                defaultSimilarityThreshold Hne) as [r Hr].
    rewrite Hr. simpl. destruct r as [m|]; [destruct (truthy m)|]; apply IH.
Qed.





End TagProperties.

(** C1.  The specification asks [findSimilarTag], called with an empty
    existing-tag list, to answer "no match" without raising.  The code does
    not guard the empty list: no exact match is found, the best-match helper
    is called on the empty list, and its error propagates.  For every
    candidate, threshold and rating, the call throws. *)
Theorem findSimilarTag_empty_vocabulary_throws :
  forall (compare : string -> string -> Q) (candidate : string) (threshold : Q),
    findSimilarTag compare candidate [] threshold
    = Throw "Bad arguments: First argument should be a string, second should be an array of strings".
Proof.
  intros compare candidate threshold. reflexivity.
Qed.

(** The error reaches the caller of [processTags] as soon as one new tag has
    a non-empty normal form. *)
Lemma processTags_empty_vocabulary_throws :
  forall (compare : string -> string -> Q) (tag : string) (rest : list string),
    normalizeTag tag <> "" ->
    exists message, processTags compare (tag :: rest) [] = Throw message.
Proof.
  intros compare tag rest Hn. unfold processTags. simpl.
  apply truthy_true in Hn. rewrite Hn. simpl. eauto.
Qed.

Example processTags_first_bookmark :
  processTags dice ["react"] []
  = Throw "Bad arguments: First argument should be a string, second should be an array of strings".
Proof. reflexivity. Qed.

(** Two of the specification's testable properties *)
Example findSimilarTag_images :
  findSimilarTag dice "Images" ["image"] defaultSimilarityThreshold
  = Return (Some "image").
Proof. reflexivity. Qed.

Lemma processTags_nil (compare : string -> string -> Q) (existing : list string) :
  processTags compare [] existing = Return [].
Proof. reflexivity. Qed.


(** C6.  The specification (and the comments of [COMMON_VARIATIONS]) promise
    technologies -> technology and classes -> class.  The plural table is
    walked in the order s, es, ies, so the rule for s fires first and the
    longer suffixes are never seen: the code yields technologie and classe. *)
Theorem normalizeTag_plural_examples :
  normalizeTag "technologies" = "technologie"
  /\ normalizeTag "classes" = "classe"
  /\ normalizeTag "technologies" <> "technology"
  /\ normalizeTag "classes" <> "class".
Proof.
  repeat split; try reflexivity; vm_compute; discriminate.
Qed.

(** C7, as stated, fails: [image] is an output of [processTags], the
    vocabulary [Image; image] includes it, and re-processing returns the
    earlier alias [Image] instead. *)
Lemma processTags_not_identity_on_output :
  processTags dice ["image"] ["image"] = Return ["image"]
  /\ incl ["image"] ["Image"; "image"]
  /\ processTags dice ["image"] ["Image"; "image"] = Return ["Image"]
  /\ ["Image"] <> ["image"].
Proof.
  repeat split; try reflexivity.
  - intros x [<-|[]]. right. left. reflexivity.
  - discriminate.
Qed.

(** The same holds with the vocabulary equal to the output itself. *)
Example processTags_not_identity_on_own_output :
  processTags dice ["bossss"] ["x"] = Return ["bosss"]
  /\ processTags dice ["bosss"] ["bosss"] = Return ["boss"].
Proof. split; reflexivity. Qed.

(** C7, amended.  For every duplicate-free list [T] of tags that are
    canonical for the vocabulary [E] (each has a non-empty, stable normal
    form and is the first entry of [E] with that normal form),
    [processTags T E] returns exactly [T]. *)
Theorem processTags_identity_on_canonical :
  forall (compare : string -> string -> Q) (T E : list string),
    NoDup T ->
    (forall t, In t T -> canonicalIn E t) ->
    processTags compare T E = Return T.
Proof.
  intros compare T E Hnd Hcan. unfold processTags.
  change T with ([] ++ T)%list at 2.
  assert (Hnd' : NoDup ([] ++ T)%list) by exact Hnd.
  revert Hnd'. generalize (@nil string) as acc.
  clear Hnd. induction T as [|t rest IH]; intros acc Hnd.
  - simpl. rewrite app_nil_r. reflexivity.
  - destruct (Hcan t (or_introl eq_refl)) as [Hne [Hstable Hfirst]].
    assert (Ht : t <> "").
    { intros ->. apply Hne. reflexivity. }
    simpl. apply truthy_true in Hne. rewrite Hne. simpl.
    unfold findSimilarTag. rewrite Hstable, Hfirst.
    apply truthy_true in Ht. cbn [truthyField bind]. rewrite Ht.
    cbn [truthyField bind]. rewrite Ht.
    rewrite Set_add_fresh.
    + rewrite IH.
      * rewrite <- app_assoc. reflexivity.
      * intros u Hu. apply Hcan. right. exact Hu.
      * rewrite <- app_assoc. exact Hnd.
    + apply NoDup_remove_2 in Hnd. intros Hin. apply Hnd.
      apply in_or_app. left. exact Hin.
Qed.

Lemma processTags_identity_on_canonical_witness :
  processTags dice ["image"; "bos"] ["image"; "Image"; "bos"]
  = Return ["image"; "bos"].
Proof.
  apply processTags_identity_on_canonical.
  - repeat constructor; simpl; intuition discriminate.
  - intros t [<-|[<-|[]]]; (repeat split; [vm_compute; discriminate | ..]);
      reflexivity.
Defined.

(** ** Normal forms of [normalizeTag] *)

Lemma lowerChar_idem (c : ascii) : lowerChar (lowerChar c) = lowerChar c.
Proof.
  destruct c as [[] [] [] [] [] [] [] []]; reflexivity.
Qed.

Lemma toLowerCase_idem (s : string) : toLowerCase (toLowerCase s) = toLowerCase s.
Proof.
  induction s as [|c s IH]; simpl; [reflexivity|].
  rewrite lowerChar_idem, IH. reflexivity.
Qed.

Lemma toLowerCase_append (a b : string) :
  toLowerCase (a ++ b) = toLowerCase a ++ toLowerCase b.
Proof.
  induction a as [|c a IH]; simpl; [reflexivity|]. rewrite IH. reflexivity.
Qed.

Lemma toLowerCase_take (n : nat) (s : string) :
  toLowerCase (take n s) = take n (toLowerCase s).
Proof.
  revert s. induction n as [|n IH]; intros [|c s]; simpl; try reflexivity.
  rewrite IH. reflexivity.
Qed.

Lemma toLowerCase_drop (n : nat) (s : string) :
  toLowerCase (drop n s) = drop n (toLowerCase s).
Proof.
  revert s. induction n as [|n IH]; intros [|c s]; simpl; try reflexivity.
  apply IH.
Qed.

Lemma toLowerCase_length (s : string) :
  String.length (toLowerCase s) = String.length s.
Proof.
  induction s as [|c s IH]; simpl; congruence.
Qed.

Lemma lower_cons (c : ascii) (s : string) :
  toLowerCase (String c s) = String c s -> lowerChar c = c /\ toLowerCase s = s.
Proof.
  simpl. intros H. injection H as Hc Hs. auto.
Qed.

Lemma lower_trimStart (s : string) :
  toLowerCase s = s -> toLowerCase (trimStart s) = trimStart s.
Proof.
  induction s as [|c s IH]; intros H; [reflexivity|].
  simpl. destruct (isWhiteSpace c); [|exact H].
  apply IH. apply lower_cons in H. apply H.
Qed.

Lemma lower_trimEnd (s : string) :
  toLowerCase s = s -> toLowerCase (trimEnd s) = trimEnd s.
Proof.
  induction s as [|c s IH]; intros H; [reflexivity|].
  apply lower_cons in H. destruct H as [Hc Hs]. specialize (IH Hs).
  simpl. destruct (trimEnd s) as [|d r].
  - destruct (isWhiteSpace c); simpl; congruence.
  - simpl in *. congruence.
Qed.

Lemma lower_trim (s : string) : toLowerCase (trim (toLowerCase s)) = trim (toLowerCase s).
Proof.
  unfold trim. apply lower_trimEnd, lower_trimStart, toLowerCase_idem.
Qed.

Lemma lower_replace (s pat rep : string) :
  toLowerCase s = s -> toLowerCase rep = rep ->
  toLowerCase (replace s pat rep) = replace s pat rep.
Proof.
  intros Hs Hrep. induction s as [|c s IH].
  - simpl. destruct pat; [|reflexivity].
    simpl. rewrite toLowerCase_append, Hrep. reflexivity.
  - cbn [replace]. destruct (String.prefix pat (String c s)).
    + rewrite toLowerCase_append, toLowerCase_drop, Hrep, Hs. reflexivity.
    + apply lower_cons in Hs. destruct Hs as [Hc Hs'].
      cbn [toLowerCase]. rewrite Hc, (IH Hs'). reflexivity.
Qed.

Lemma lower_stripPrefix (s : string) (entry : string * string) :
  toLowerCase s = s -> toLowerCase (snd entry) = snd entry ->
  toLowerCase (stripPrefix s entry) = stripPrefix s entry.
Proof.
  destruct entry as [prefix replacement]. simpl. intros Hs Hr.
  destruct (startsWith s prefix); [apply lower_replace|]; assumption.
Qed.

Lemma lower_stripPlural (s : string) (entry : string * string) :
  toLowerCase s = s -> toLowerCase (snd entry) = snd entry ->
  toLowerCase (stripPlural s entry) = stripPlural s entry.
Proof.
  destruct entry as [suffix replacement]. cbn [snd]. intros Hs Hr.
  unfold stripPlural.
  destruct (endsWith s suffix && _); [|exact Hs].
  destruct (2 <=? _)%nat; [|exact Hs].
  unfold sliceEnd. rewrite toLowerCase_append, toLowerCase_take, Hs, Hr. reflexivity.
Qed.

(** The result of [normalizeTag] is in lower case. *)
Lemma normalizeTag_lower (t : string) :
  toLowerCase (normalizeTag t) = normalizeTag t.
Proof.
  unfold normalizeTag. destruct (negb (truthy t)); [reflexivity|].
  destruct (has PRESERVED_TERMS _); [apply lower_trim|].
  unfold COMMON_VARIATIONS_plurals, COMMON_VARIATIONS_prefixes. cbn [fold_left].
  repeat (apply lower_stripPlural; [|reflexivity]).
  repeat (apply lower_stripPrefix; [|reflexivity]).
  apply lower_trim.
Qed.

Lemma length_append (a b : string) :
  String.length (a ++ b) = String.length a + String.length b.
Proof.
  induction a as [|c a IH]; simpl; congruence.
Qed.

Lemma take_drop (n : nat) (s : string) : take n s ++ drop n s = s.
Proof.
  revert s. induction n as [|n IH]; intros [|c s]; simpl; try reflexivity.
  rewrite IH. reflexivity.
Qed.

Lemma drop_append_length (p x : string) : drop (String.length p) (p ++ x) = x.
Proof.
  induction p as [|c p IH]; simpl; [destruct x; reflexivity | exact IH].
Qed.

Lemma append_assoc (a b c : string) : (a ++ b) ++ c = a ++ (b ++ c).
Proof.
  induction a as [|x a IH]; simpl; congruence.
Qed.

Lemma endsWith_append (p x : string) : endsWith (p ++ x) x = true.
Proof.
  unfold endsWith. rewrite length_append.
  replace (String.length p + String.length x - String.length x)
    with (String.length p) by lia.
  rewrite drop_append_length, String.eqb_refl.
  rewrite andb_true_r. apply Nat.leb_le. lia.
Qed.

Lemma endsWith_split (s x : string) :
  endsWith s x = true -> exists p, s = p ++ x.
Proof.
  unfold endsWith. intros H. apply andb_true_iff in H. destruct H as [_ H].
  apply String.eqb_eq in H.
  exists (take (String.length s - String.length x) s).
  pose proof (take_drop (String.length s - String.length x) s) as Hsplit.
  rewrite H in Hsplit. symmetry. exact Hsplit.
Qed.

(** A string that ends with a suffix ends with every tail of that suffix. *)
Lemma endsWith_tail (s : string) (c : ascii) (x : string) :
  endsWith s (String c x) = true -> endsWith s x = true.
Proof.
  intros H. apply endsWith_split in H. destruct H as [p ->].
  change (String c x) with (String c "" ++ x).
  rewrite <- append_assoc. apply endsWith_append.
Qed.

Lemma length_take (n : nat) (s : string) :
  String.length (take n s) = Nat.min n (String.length s).
Proof.
  revert s. induction n as [|n IH]; intros [|c s]; simpl; try reflexivity.
  rewrite IH. reflexivity.
Qed.

(** A tag that does not end in s, or is shorter than three characters, goes
    through the plural loop unchanged. *)
Lemma plurals_fixed (n : string) :
  endsWith n "s" = false \/ String.length n < 3 ->
  fold_left stripPlural COMMON_VARIATIONS_plurals n = n.
Proof.
  intros [Hs | Hlen].
  - assert (Hes : endsWith n "es" = false).
    { destruct (endsWith n "es") eqn:E; [|reflexivity].
      apply endsWith_tail in E. congruence. }
    assert (Hies : endsWith n "ies" = false).
    { destruct (endsWith n "ies") eqn:E; [|reflexivity].
      apply endsWith_tail in E. congruence. }
    unfold COMMON_VARIATIONS_plurals. cbn [fold_left]. unfold stripPlural.
    rewrite Hs. cbn [andb]. rewrite Hes. cbn [andb]. rewrite Hies. reflexivity.
  - assert (H1 : stripPlural n ("s", "") = n).
    { unfold stripPlural. destruct (endsWith n "s" && _); [|reflexivity].
      destruct (2 <=? _)%nat eqn:E; [|reflexivity].
      apply Nat.leb_le in E. unfold sliceEnd in E.
      rewrite length_append, length_take in E. simpl in E. lia. }
    assert (H2 : stripPlural n ("es", "") = n).
    { unfold stripPlural.
      replace (String.length "es" <? String.length n)%nat with false.
      - rewrite andb_false_r. reflexivity.
      - symmetry. apply Nat.ltb_ge. simpl. lia. }
    assert (H3 : stripPlural n ("ies", "y") = n).
    { unfold stripPlural.
      replace (String.length "ies" <? String.length n)%nat with false.
      - rewrite andb_false_r. reflexivity.
      - symmetry. apply Nat.ltb_ge. simpl. lia. }
    unfold COMMON_VARIATIONS_plurals. cbn [fold_left].
    rewrite H1, H2, H3. reflexivity.
Qed.

Lemma prefixes_fixed (n : string) :
  (forall prefix, In prefix (map fst COMMON_VARIATIONS_prefixes) ->
                  startsWith n prefix = false) ->
  fold_left stripPrefix COMMON_VARIATIONS_prefixes n = n.
Proof.
  intros H. unfold COMMON_VARIATIONS_prefixes. cbn [fold_left]. unfold stripPrefix.
  rewrite (H "the "), (H "a "), (H "an "); simpl; auto.
Qed.

Lemma normalizeTag_preserved (n : string) :
  has PRESERVED_TERMS n = true -> normalizeTag n = n.
Proof.
  intros H. apply has_In in H. simpl in H.
  repeat (destruct H as [<- | H]; [reflexivity|]). destruct H.
Qed.

(** C5, as stated, fails: [boss] normalizes to [bos], which normalizes to
    [bo]; and [the the x] normalizes to [the x], which normalizes to [x]. *)
Lemma normalizeTag_not_idempotent :
  normalizeTag (normalizeTag "boss") <> normalizeTag "boss"
  /\ normalizeTag (normalizeTag "the the x") <> normalizeTag "the the x".
Proof.
  split; vm_compute; discriminate.
Qed.

(** C5, amended.  For every string [t] whose normalization [n] is a
    preserved term, or is trimmed, starts with none of the prefixes
    [the ], [a ], [an ] and either does not end in [s] or has fewer than
    three characters, normalizing [n] again returns [n]. *)
Theorem normalizeTag_idempotent_on_normal_forms :
  forall t : string,
    stableForm (normalizeTag t) ->
    normalizeTag (normalizeTag t) = normalizeTag t.
Proof.
  intros t. set (n := normalizeTag t). unfold stableForm. intros H.
  destruct (has PRESERVED_TERMS n) eqn:Ep; [apply normalizeTag_preserved, Ep|].
  destruct H as [H | [Htrim [Hpre Hplural]]]; [discriminate|].
  assert (Hlow : toLowerCase n = n) by apply normalizeTag_lower.
  clearbody n. unfold normalizeTag. destruct (truthy n) eqn:Et; cbn [negb].
  - rewrite Hlow, Htrim, Ep, (prefixes_fixed n Hpre).
    apply plurals_fixed. exact Hplural.
  - apply truthy_false in Et. congruence.
Qed.

Lemma normalizeTag_idempotent_on_normal_forms_witness :
  normalizeTag (normalizeTag "The Images") = normalizeTag "The Images"
  /\ normalizeTag (normalizeTag "awss") = normalizeTag "awss".
Proof.
  split.
  - apply (normalizeTag_idempotent_on_normal_forms "The Images").
    right. split; [reflexivity|]. split.
    + intros prefix [<-|[<-|[<-|[]]]]; reflexivity.
    + left. reflexivity.
  - apply (normalizeTag_idempotent_on_normal_forms "awss").
    left. reflexivity.
Defined.

(** ** The dispatcher *)

Lemma truthyField_some (v : option string) :
  truthyField v = true -> v = Some (AiService.orEmpty v) /\ AiService.orEmpty v <> "".
Proof.
  destruct v as [s|]; simpl; [|discriminate].
  intros H. apply truthy_true in H. auto.
Qed.

(** C2.  For every url, content and user record whose selected provider has
    no credential stored, or whose provider selection is outside
    {openai, claude}, the dispatcher's [analyzeContent] returns (it does not
    throw) the defaulted object: an error-prefixed summary, no tags, category
    Article; and it issues no provider call. *)
Theorem analyzeContent_defaults_on_configuration_error :
  forall (respond : Call -> Completion (option string))
         (JSON_parse : string -> option Json)
         (url content : string) (user : AiService.User),
    noCredentialForSelection user \/ selectionOutsideEnum user ->
    exists message,
      AiService.analyzeContent respond JSON_parse url content user
      = (Return (defaulted message), []).
Proof.
  intros respond JSON_parse url content user H.
  assert (Hthrow : exists message,
             AiService.dispatch respond JSON_parse url content user
             = (Throw message, [])).
  { unfold AiService.dispatch.
    destruct (truthyField (AiService.aiProvider user)) eqn:Ep; cbn [negb]; [|eauto].
    destruct (negb (truthyField (AiService.openAiKey user))
              && negb (truthyField (AiService.claudeKey user))); [eauto|].
    apply truthyField_some in Ep. destruct Ep as [Ep _].
    destruct (String.eqb (AiService.orEmpty (AiService.aiProvider user)) "openai")
      eqn:Eo.
    - apply String.eqb_eq in Eo. rewrite Eo in Ep.
      destruct H as [[[_ Hk] | [Hc _]] | [Hn _]]; try congruence.
      rewrite Hk. cbn [negb]. eauto.
    - destruct (String.eqb (AiService.orEmpty (AiService.aiProvider user)) "claude")
        eqn:Ec; [|eauto].
      apply String.eqb_eq in Ec. rewrite Ec in Ep.
      destruct H as [[[Ho _] | [_ Hk]] | [_ Hn]]; try congruence.
      rewrite Hk. cbn [negb]. eauto. }
  destruct Hthrow as [message Hm]. exists message.
  unfold AiService.analyzeContent. rewrite Hm. reflexivity.
Qed.

Lemma analyzeContent_defaults_on_configuration_error_witness :
  (exists message,
      AiService.analyzeContent respondArticles parseArticles
        "https://example.com" "text"
        {| AiService.aiProvider := Some "claude";
           AiService.openAiKey := Some "sk-1";
           AiService.claudeKey := None |}
      = (Return (defaulted message), []))
  /\ (exists message,
         AiService.analyzeContent respondArticles parseArticles
           "https://example.com" "text"
           {| AiService.aiProvider := Some "gemini";
              AiService.openAiKey := Some "sk-1";
              AiService.claudeKey := None |}
         = (Return (defaulted message), [])).
Proof.
  split; apply analyzeContent_defaults_on_configuration_error.
  - left. right. split; reflexivity.
  - right. split; discriminate.
Defined.

(** Whatever the user record holds, the dispatcher returns an object. *)
Lemma analyzeContent_never_throws
    (respond : Call -> Completion (option string)) (JSON_parse : string -> option Json)
    (url content : string) (user : AiService.User) :
  exists result log,
    AiService.analyzeContent respond JSON_parse url content user = (Return result, log).
Proof.
  unfold AiService.analyzeContent.
  destruct (AiService.dispatch respond JSON_parse url content user) as [[r|m] log];
    eauto.
Qed.

(** ** The provider variants *)

Lemma catch_settle {A : Type} (p : Async A) (fallback : A) :
  catch p (fun _ => fallback) = (Return (settle (fst p) fallback), snd p).
Proof.
  destruct p as [[a|m] log]; reflexivity.
Qed.

Lemma OpenAI_analyzeContentWith_composed (url content userApiKey : string) gs gt dc :
  userApiKey <> "" ->
  OpenAIService.analyzeContentWith gs gt dc url content userApiKey
  = let openai := {| variant := OpenAI; apiKey := userApiKey |} in
    composed (gs content openai) (gt content url openai) (dc content url openai).
Proof.
  intros Hkey. apply truthy_true in Hkey.
  unfold OpenAIService.analyzeContentWith, OpenAIService.createOpenAIClient.
  rewrite Hkey. cbn [negb]. rewrite !catch_settle. reflexivity.
Qed.

Lemma Claude_analyzeContentWith_composed (url content userApiKey : string) gs gt dc :
  userApiKey <> "" ->
  ClaudeService.analyzeContentWith gs gt dc url content userApiKey
  = let claude := {| variant := Claude; apiKey := userApiKey |} in
    composed (gs content url claude) (gt content url claude) (dc content url claude).
Proof.
  intros Hkey. apply truthy_true in Hkey.
  unfold ClaudeService.analyzeContentWith, ClaudeService.createClaudeClient.
  rewrite Hkey. cbn [negb]. rewrite !catch_settle. reflexivity.
Qed.

Section ProviderProperties.

Variable respond : Call -> Completion (option string).
Variable JSON_parse : string -> option Json.

(** The sub-operations of both variants catch every failure themselves:
    their promises are always fulfilled. *)
Lemma sub_operations_never_reject (content url : string) (c : Client) :
  (exists v, fst (OpenAIService.generateSummary respond content c) = Return v)
  /\ (exists v, fst (OpenAIService.generateTags respond JSON_parse content url c) = Return v)
  /\ (exists v, fst (OpenAIService.determineCategory respond content url c) = Return v)
  /\ (exists v, fst (ClaudeService.generateSummary respond content url c) = Return v)
  /\ (exists v, fst (ClaudeService.generateTags respond JSON_parse content url c) = Return v)
  /\ (exists v, fst (ClaudeService.determineCategory respond content url c) = Return v).
Proof.
  repeat split; try (simpl; eauto).
  - unfold OpenAIService.determineCategory.
    repeat (match goal with |- context [if ?b then _ else _] => destruct b end);
      simpl; eauto.
  - unfold ClaudeService.determineCategory.
    repeat (match goal with |- context [if ?b then _ else _] => destruct b end);
      simpl; eauto.
Qed.

(** When the provider rejects the tag call, tag generation yields the empty
    list, in both variants. *)
Lemma generateTags_provider_rejects (content url : string) (c : Client) :
  (forall call e, snd (OpenAIService.generateTags respond JSON_parse content url c) = [call] ->
                  respond call = Throw e ->
                  fst (OpenAIService.generateTags respond JSON_parse content url c) = Return [])
  /\ (forall call e, snd (ClaudeService.generateTags respond JSON_parse content url c) = [call] ->
                     respond call = Throw e ->
                     fst (ClaudeService.generateTags respond JSON_parse content url c) = Return []).
Proof.
  split; intros call e Hlog Hr; simpl in *; injection Hlog as <-; rewrite Hr;
    reflexivity.
Qed.

End ProviderProperties.

(** With the sub-operations of the source, a provider that rejects the tag
    call costs the result its tags only. *)
Lemma analyzeContent_tag_call_rejected
    (respond : Call -> Completion (option string)) (JSON_parse : string -> option Json)
    (url content userApiKey : string) :
  userApiKey <> "" ->
  (forall call, max_tokens (request call) = 100 -> respond call = Throw "timeout") ->
  let openai := {| variant := OpenAI; apiKey := userApiKey |} in
  let claude := {| variant := Claude; apiKey := userApiKey |} in
  (exists r log,
      OpenAIService.analyzeContent respond JSON_parse url content userApiKey
      = (Return r, log)
      /\ tags r = []
      /\ Return (summary r) = fst (OpenAIService.generateSummary respond content openai)
      /\ Return (category r)
         = fst (OpenAIService.determineCategory respond content url openai))
  /\ (exists r log,
         ClaudeService.analyzeContent respond JSON_parse url content userApiKey
         = (Return r, log)
         /\ tags r = []
         /\ Return (summary r)
            = fst (ClaudeService.generateSummary respond content url claude)
         /\ Return (category r)
            = fst (ClaudeService.determineCategory respond content url claude)).
Proof.
  intros Hkey Hreject openai claude.
  destruct (sub_operations_never_reject respond JSON_parse content url openai)
    as [[s Hs] [_ [[c Hc] _]]].
  destruct (sub_operations_never_reject respond JSON_parse content url claude)
    as [_ [_ [_ [[s' Hs'] [_ [c' Hc']]]]]].
  split.
  - unfold OpenAIService.analyzeContent.
    rewrite OpenAI_analyzeContentWith_composed by exact Hkey.
    eexists. eexists. split; [reflexivity|]. cbn [tags summary category].
    fold openai. rewrite Hs, Hc. repeat split.
    unfold OpenAIService.generateTags. cbn [fst].
    rewrite Hreject by reflexivity. reflexivity.
  - unfold ClaudeService.analyzeContent.
    rewrite Claude_analyzeContentWith_composed by exact Hkey.
    eexists. eexists. split; [reflexivity|]. cbn [tags summary category].
    fold claude. rewrite Hs', Hc'. repeat split.
    unfold ClaudeService.generateTags. cbn [fst].
    rewrite Hreject by reflexivity. reflexivity.
Qed.

(** ** The summary request *)

Lemma length_filler (n : nat) : String.length (filler n) = n.
Proof.
  induction n as [|n IH]; simpl; congruence.
Qed.

Lemma prefix_take (n : nat) (s : string) : String.prefix (take n s) s = true.
Proof.
  revert s. induction n as [|n IH]; intros [|c s]; simpl; try reflexivity.
  destruct (ascii_dec c c); [apply IH | congruence].
Qed.

(** C9, as stated, fails for the Claude variant: the text of its summary
    request is the whole content, so no bound holds for it. *)
Lemma claude_summary_request_unbounded :
  ~ exists bound : nat,
      forall content text,
        In text (userTexts (snd (ClaudeService.generateSummary respondArticles
                                   content "https://example.com" (sampleClient Claude)))) ->
        String.length text <= bound.
Proof.
  intros [bound H].
  specialize (H (filler (S bound)) (filler (S bound))).
  rewrite length_filler in H.
  assert (Hin : In (filler (S bound))
                  (userTexts (snd (ClaudeService.generateSummary respondArticles
                                     (filler (S bound)) "https://example.com"
                                     (sampleClient Claude))))).
  { left. reflexivity. }
  specialize (H Hin). lia.
Qed.

(** C9, amended.  For every content: the OpenAI variant issues one summary
    request whose text is the first 1000 characters of the content, a prefix
    of it of length at most 1000; the Claude variant issues one summary
    request whose text is the content in full. *)
Theorem summary_request_text :
  forall (respond : Call -> Completion (option string))
         (content url : string) (c : Client),
    userTexts (snd (OpenAIService.generateSummary respond content c))
    = [take 1000 content]
    /\ String.length (take 1000 content) <= 1000
    /\ String.prefix (take 1000 content) content = true
    /\ userTexts (snd (ClaudeService.generateSummary respond content url c))
       = [content].
Proof.
  intros respond content url c. repeat split.
  - rewrite length_take. apply Nat.le_min_l.
  - apply prefix_take.
Qed.

(** ** The category short-circuit *)

Lemma prefix_toLowerCase (sub s : string) :
  String.prefix sub s = true ->
  String.prefix (toLowerCase sub) (toLowerCase s) = true.
Proof.
  revert s. induction sub as [|a sub IH]; intros [|b s]; simpl; try congruence.
  destruct (ascii_dec a b) as [->|]; [|intros H; discriminate H].
  intros H. destruct (ascii_dec (lowerChar b) (lowerChar b)); [auto | congruence].
Qed.

(** A pattern in lower case that occurs in the URL occurs in the lowered URL. *)
Lemma includes_toLowerCase (s sub : string) :
  toLowerCase sub = sub ->
  includes s sub = true -> includes (toLowerCase s) sub = true.
Proof.
  intros Hsub. induction s as [|c s IH]; cbn [includes toLowerCase].
  - destruct (String.prefix sub "") eqn:E; [reflexivity | intros H; discriminate H].
  - destruct (String.prefix sub (String c s)) eqn:E.
    + apply prefix_toLowerCase in E. rewrite Hsub in E. cbn [toLowerCase] in E.
      rewrite E. reflexivity.
    + intros H. rewrite (IH H).
      destruct (String.prefix sub (String (lowerChar c) (toLowerCase s)));
        reflexivity.
Qed.

(** C10.  The short-circuit looks for its patterns anywhere in the lowered
    URL.  In the OpenAI variant a URL that contains [video] is classified
    Video with no provider call; in both variants a URL that contains
    [research] or [paper], and none of the variant's video patterns, is
    classified Research with no provider call. *)
Theorem determineCategory_substring_short_circuit :
  forall (respond : Call -> Completion (option string))
         (content url : string) (c : Client),
    (includes (toLowerCase url) "video" = true ->
     OpenAIService.determineCategory respond content url c = (Return "Video", []))
    /\ (includes (toLowerCase url) "research" = true
        \/ includes (toLowerCase url) "paper" = true ->
        (matchesAny (toLowerCase url) (videoPatterns OpenAI) = false ->
         OpenAIService.determineCategory respond content url c
         = (Return "Research", []))
        /\ (matchesAny (toLowerCase url) (videoPatterns Claude) = false ->
            ClaudeService.determineCategory respond content url c
            = (Return "Research", []))).
Proof.
  intros respond content url c. split.
  - intros H. unfold OpenAIService.determineCategory. rewrite H.
    rewrite !orb_true_r. reflexivity.
  - intros H.
    assert (Hr : includes (toLowerCase url) "arxiv.org"
                 || includes (toLowerCase url) "research"
                 || includes (toLowerCase url) "paper"
                 || includes (toLowerCase url) "doi.org" = true).
    { destruct H as [H | H]; rewrite H; rewrite ?orb_true_r; reflexivity. }
    split; intros Hv; unfold matchesAny, videoPatterns in Hv; cbn [existsb] in Hv;
      rewrite orb_false_r in Hv.
    + unfold OpenAIService.determineCategory.
      rewrite <- !orb_assoc, Hv. rewrite !orb_assoc, Hr. reflexivity.
    + unfold ClaudeService.determineCategory.
      rewrite <- !orb_assoc, Hv. rewrite !orb_assoc, Hr. reflexivity.
Qed.

Lemma determineCategory_substring_short_circuit_witness :
  OpenAIService.determineCategory respondArticles "text"
    "https://example.com/videogames/review" (sampleClient OpenAI)
  = (Return "Video", [])
  /\ OpenAIService.determineCategory respondArticles "text"
       "https://newspaper.example.com/today" (sampleClient OpenAI)
     = (Return "Research", [])
  /\ ClaudeService.determineCategory respondArticles "text"
       "https://newspaper.example.com/today" (sampleClient Claude)
     = (Return "Research", []).
Proof.
  split; [|split].
  - apply (determineCategory_substring_short_circuit respondArticles "text"
             "https://example.com/videogames/review" (sampleClient OpenAI)).
    reflexivity.
  - apply (determineCategory_substring_short_circuit respondArticles "text"
             "https://newspaper.example.com/today" (sampleClient OpenAI)).
    + right. reflexivity.
    + reflexivity.
  - apply (determineCategory_substring_short_circuit respondArticles "text"
             "https://newspaper.example.com/today" (sampleClient Claude)).
    + right. reflexivity.
    + reflexivity.
Defined.

(** The Claude variant has no [video] pattern: the same URL goes to the
    provider there. *)
Example claude_videogames_calls_provider :
  exists call,
    snd (ClaudeService.determineCategory respondArticles "text"
           "https://example.com/videogames/review" (sampleClient Claude))
    = [call].
Proof. eexists. reflexivity. Qed.

(** ** Generic terms *)

Lemma lower_lowerTrimEach (elements : list Json) (cleaned : list string) :
  lowerTrimEach elements = Return cleaned ->
  forall t, In t cleaned -> toLowerCase t = t.
Proof.
  revert cleaned. induction elements as [|e rest IH]; intros cleaned H t Hin.
  - simpl in H. injection H as <-. destruct Hin.
  - destruct e; simpl in H; try discriminate.
    destruct (lowerTrimEach rest) as [tail|m]; simpl in H; [|discriminate].
    injection H as <-. destruct Hin as [<-|Hin].
    + apply lower_trim.
    + eapply IH; [reflexivity | exact Hin].
Qed.

(** At its own stage the filter of [generateTags] does what it says: no tag
    it lets through is a generic term, in either variant. *)
Lemma generateTags_filters_generic_terms
    (respond : Call -> Completion (option string)) (JSON_parse : string -> option Json)
    (content url : string) (c : Client) (out : list string) (t : string) :
  (fst (OpenAIService.generateTags respond JSON_parse content url c) = Return out ->
   In t out -> ~ In t OpenAIService.genericTerms)
  /\ (fst (ClaudeService.generateTags respond JSON_parse content url c) = Return out ->
      In t out -> ~ In t ClaudeService.genericTerms).
Proof.
  assert (Hfilter : forall g parsed cleaned,
             lowerTrimAll parsed = Return cleaned ->
             In t (filter (keepTag g) cleaned) -> ~ In t g).
  { intros g parsed cleaned Hc Hin Hg.
    apply filter_In in Hin. destruct Hin as [Hin Hkeep].
    assert (Hlow : toLowerCase t = t).
    { destruct parsed; simpl in Hc; try discriminate.
      eapply lower_lowerTrimEach; eassumption. }
    unfold keepTag in Hkeep. rewrite Hlow in Hkeep.
    assert (Hinc : Array_includes g t = true).
    { unfold Array_includes. apply existsb_exists. exists t.
      split; [exact Hg | apply String.eqb_refl]. }
    rewrite Hinc in Hkeep. cbn [negb] in Hkeep.
    rewrite andb_false_r in Hkeep. discriminate. }
  split; cbn [fst OpenAIService.generateTags ClaudeService.generateTags];
    intros H Hin; injection H as H; subst out;
    (destruct (respond _) as [[tagContent|]|]; [|destruct Hin..]);
    (destruct (JSON_parse tagContent) as [parsed|]; [|destruct Hin]);
    (destruct (lowerTrimAll parsed) as [cleaned|] eqn:Hc; [|destruct Hin]);
    eapply Hfilter; eassumption.
Qed.

(** C8.  The specification's invariant: no tag of the pipeline equals a
    generic term.  The filter of [generateTags] runs before normalization: the
    provider's [articles] passes the filter, the vocabulary [zzz] holds no
    generic term, and [processTags] turns the tag into the generic term
    [article]. *)
Theorem pipeline_yields_generic_term :
  fst (ClaudeService.generateTags respondArticles parseArticles "text"
         "https://example.com" (sampleClient Claude)) = Return ["articles"]
  /\ fst (OpenAIService.generateTags respondArticles parseArticles "text"
            "https://example.com" (sampleClient OpenAI)) = Return ["articles"]
  /\ ~ In "zzz" ClaudeService.genericTerms
  /\ ~ In "zzz" OpenAIService.genericTerms
  /\ processTags dice ["articles"] ["zzz"] = Return ["article"]
  /\ In "article" ClaudeService.genericTerms
  /\ In "article" OpenAIService.genericTerms.
Proof.
  split; [reflexivity|]. split; [reflexivity|].
  split; [simpl; intuition discriminate|].
  split; [simpl; intuition discriminate|].
  split; [reflexivity|]. split; simpl; auto 10.
Qed.

(** * Further properties of the code *)

(** ** [normalizeTag] *)

Lemma length_trimStart (s : string) : String.length (trimStart s) <= String.length s.
Proof.
  induction s as [|c s IH]; simpl; [lia|].
  destruct (isWhiteSpace c); simpl; lia.
Qed.

Lemma length_trimEnd (s : string) : String.length (trimEnd s) <= String.length s.
Proof.
  induction s as [|c s IH]; simpl; [lia|].
  destruct (trimEnd s); [destruct (isWhiteSpace c)|]; simpl in *; lia.
Qed.

Lemma length_trim (s : string) : String.length (trim s) <= String.length s.
Proof.
  unfold trim. pose proof (length_trimEnd (trimStart s)).
  pose proof (length_trimStart s). lia.
Qed.

Lemma length_drop (n : nat) (s : string) :
  String.length (drop n s) = String.length s - n.
Proof.
  revert s. induction n as [|n IH]; intros [|c s]; simpl; try lia. apply IH.
Qed.

Lemma prefix_split (p s : string) :
  String.prefix p s = true -> s = p ++ drop (String.length p) s.
Proof.
  revert s. induction p as [|a p IH]; intros [|b s]; simpl; try discriminate.
  - reflexivity.
  - reflexivity.
  - destruct (ascii_dec a b) as [->|]; [|discriminate].
    intros H. rewrite <- (IH s H). reflexivity.
Qed.

Lemma replace_at_prefix (s pat rep : string) :
  String.prefix pat s = true ->
  replace s pat rep = rep ++ drop (String.length pat) s.
Proof.
  intros H. destruct s; cbn [replace]; rewrite H; reflexivity.
Qed.

Lemma length_stripPrefix (s : string) (entry : string * string) :
  snd entry = "" -> String.length (stripPrefix s entry) <= String.length s.
Proof.
  destruct entry as [prefix replacement]. cbn [snd]. intros ->.
  unfold stripPrefix, startsWith.
  destruct (String.prefix prefix s) eqn:E; [|lia].
  rewrite (replace_at_prefix _ _ _ E). cbn [append]. rewrite length_drop. lia.
Qed.

Lemma length_stripPlural (s : string) (entry : string * string) :
  String.length (snd entry) <= String.length (fst entry) ->
  String.length (stripPlural s entry) <= String.length s.
Proof.
  destruct entry as [suffix replacement]. cbn [fst snd]. intros Hrep.
  unfold stripPlural.
  destruct (endsWith s suffix && _) eqn:E; [|lia].
  destruct (2 <=? _)%nat; [|lia].
  apply andb_true_iff in E. destruct E as [_ E]. apply Nat.ltb_lt in E.
  unfold sliceEnd. rewrite length_append, length_take. lia.
Qed.

Lemma append_empty_r (a : string) : a ++ "" = a.
Proof.
  induction a as [|c a IH]; simpl; congruence.
Qed.

Lemma lastChar_append (a b : string) :
  lastChar (a ++ b) = match b with
                      | EmptyString => lastChar a
                      | _ => lastChar b
                      end.
Proof.
  destruct b as [|d b]; [rewrite append_empty_r; reflexivity|].
  induction a as [|c a IH]; [reflexivity|].
  cbn [append lastChar].
  destruct (a ++ String d b) eqn:E; [destruct a; discriminate|].
  exact IH.
Qed.

Lemma endsBlank_trimEnd (s : string) :
  trimEnd s = "" \/ endsBlank (trimEnd s) = false.
Proof.
  unfold endsBlank. induction s as [|c s IH]; [left; reflexivity|].
  cbn [trimEnd]. destruct (trimEnd s) as [|d r] eqn:E.
  - destruct (isWhiteSpace c) eqn:Ec; [left; reflexivity|].
    right. simpl. exact Ec.
  - right. destruct IH as [IH|IH]; [discriminate|]. exact IH.
Qed.

Lemma stripPrefix_endsBlank (s : string) (entry : string * string) :
  In entry COMMON_VARIATIONS_prefixes ->
  endsBlank s = false -> endsBlank (stripPrefix s entry) = false.
Proof.
  intros Hin Hs.
  assert (Hentry : snd entry = "" /\ endsBlank (fst entry) = true).
  { simpl in Hin. repeat (destruct Hin as [<-|Hin]; [split; reflexivity|]).
    destruct Hin. }
  destruct entry as [prefix replacement]. cbn [fst snd] in Hentry.
  destruct Hentry as [-> Hprefix].
  unfold stripPrefix, startsWith.
  destruct (String.prefix prefix s) eqn:E; [|exact Hs].
  rewrite (replace_at_prefix _ _ _ E). cbn [append].
  pose proof (prefix_split _ _ E) as Hsplit.
  unfold endsBlank in *. rewrite Hsplit, lastChar_append in Hs.
  destruct (drop (String.length prefix) s); [congruence | exact Hs].
Qed.

Lemma endsBlank_nonempty (s : string) : endsBlank s = false -> s <> "".
Proof.
  intros H ->. discriminate.
Qed.

Lemma stripPlural_nonempty (s : string) (entry : string * string) :
  s <> "" -> stripPlural s entry <> "".
Proof.
  destruct entry as [suffix replacement]. intros Hs. unfold stripPlural.
  destruct (endsWith s suffix && _); [|exact Hs].
  destruct (2 <=? String.length _)%nat eqn:E; [|exact Hs].
  apply Nat.leb_le in E. intros H. rewrite H in E. simpl in E. lia.
Qed.

(** [normalizeTag] returns the empty string exactly for a blank tag, one
    that is empty once lowered and trimmed; every other tag keeps at least
    one character. *)
Theorem normalizeTag_empty_iff_blank :
  forall t : string,
    normalizeTag t = "" <-> trim (toLowerCase t) = "".
Proof.
  intros t. unfold normalizeTag. destruct (truthy t) eqn:Et; cbn [negb].
  - destruct (trim (toLowerCase t)) as [|c r] eqn:En; [split; reflexivity|].
    split; [|discriminate]. intros H. exfalso. revert H.
    destruct (has PRESERVED_TERMS (String c r)); [discriminate|].
    assert (Hend : endsBlank (String c r) = false).
    { destruct (endsBlank_trimEnd (trimStart (toLowerCase t))) as [H|H];
        unfold trim in En; rewrite En in H; [discriminate | exact H]. }
    unfold COMMON_VARIATIONS_plurals, COMMON_VARIATIONS_prefixes. cbn [fold_left].
    repeat apply stripPlural_nonempty.
    apply endsBlank_nonempty.
    repeat (apply stripPrefix_endsBlank; [simpl; auto|]).
    exact Hend.
  - apply truthy_false in Et. subst t. split; reflexivity.
Qed.

(** A tag whose lowered and trimmed form is a preserved term is returned in
    that form, final s and all, and the result is a fixed point. *)
Theorem normalizeTag_keeps_preserved_terms :
  forall t : string,
    has PRESERVED_TERMS (trim (toLowerCase t)) = true ->
    normalizeTag t = trim (toLowerCase t)
    /\ normalizeTag (normalizeTag t) = normalizeTag t.
Proof.
  intros t H.
  assert (Hn : normalizeTag t = trim (toLowerCase t)).
  { unfold normalizeTag. destruct (truthy t) eqn:Et; cbn [negb].
    - rewrite H. reflexivity.
    - apply truthy_false in Et. subst t. discriminate H. }
  split; [exact Hn|]. rewrite Hn. apply normalizeTag_preserved. exact H.
Qed.

Lemma normalizeTag_keeps_preserved_terms_witness :
  normalizeTag "  Kubernetes " = "kubernetes"
  /\ normalizeTag (normalizeTag "  Kubernetes ") = normalizeTag "  Kubernetes ".
Proof.
  apply (normalizeTag_keeps_preserved_terms "  Kubernetes "). reflexivity.
Defined.

(** ** [findSimilarTag] *)

Section MatcherProperties.

Variable compare : string -> string -> Q.

(** The best match of a non-empty list is one of its targets, carries that
    target's rating, and no target rates higher. *)
Lemma best_of_fold (mainString : string) (ts : list string) (init : StringSimilarity.Match) :
  StringSimilarity.rating init = compare mainString (StringSimilarity.target init) ->
  let best := fold_left (StringSimilarity.better compare mainString) ts init in
  In (StringSimilarity.target best) (StringSimilarity.target init :: ts)
  /\ StringSimilarity.rating best = compare mainString (StringSimilarity.target best)
  /\ (StringSimilarity.rating init <= StringSimilarity.rating best)%Q
  /\ (forall e, In e ts -> (compare mainString e <= StringSimilarity.rating best)%Q).
Proof.
  revert init. induction ts as [|t ts IH]; intros init Hinit; cbn [fold_left].
  - repeat split; [left; reflexivity | exact Hinit | apply Qle_refl | intros e []].
  - set (next := StringSimilarity.better compare mainString init t).
    assert (Hnext : StringSimilarity.rating next
                    = compare mainString (StringSimilarity.target next)
                    /\ In (StringSimilarity.target next)
                         [StringSimilarity.target init; t]
                    /\ (StringSimilarity.rating init <= StringSimilarity.rating next)%Q
                    /\ (compare mainString t <= StringSimilarity.rating next)%Q).
    { unfold next, StringSimilarity.better.
      destruct (Qle_bool (compare mainString t) (StringSimilarity.rating init)) eqn:E.
      - apply Qle_bool_iff in E.
        repeat split; [exact Hinit | left; reflexivity | apply Qle_refl | exact E].
      - cbn. repeat split; [right; left; reflexivity | | apply Qle_refl].
        apply Qlt_le_weak, Qnot_le_lt. intros H. apply Qle_bool_iff in H. congruence. }
    destruct Hnext as [Hr [Hin [Hle Ht]]].
    destruct (IH next Hr) as [Hin' [Hr' [Hle' Hall]]].
    repeat split.
    + destruct Hin' as [Heq | Hin'].
      * rewrite <- Heq. destruct Hin as [<- | [<- | []]];
          [left | right; left]; reflexivity.
      * right. right. exact Hin'.
    + exact Hr'.
    + eapply Qle_trans; eassumption.
    + intros e [<- | He]; [eapply Qle_trans; eassumption | apply Hall, He].
Qed.

Lemma findBestMatch_best (mainString : string) (targets : list string)
    (best : StringSimilarity.Match) :
  StringSimilarity.findBestMatch compare mainString targets = Return best ->
  In (StringSimilarity.target best) targets
  /\ StringSimilarity.rating best = compare mainString (StringSimilarity.target best)
  /\ (forall e, In e targets -> (compare mainString e <= StringSimilarity.rating best)%Q).
Proof.
  destruct targets as [|t ts]; [discriminate|]. cbn [StringSimilarity.findBestMatch].
  intros H. injection H as <-.
  destruct (best_of_fold mainString ts
              {| StringSimilarity.target := t;
                 StringSimilarity.rating := compare mainString t |} eq_refl)
    as [Hin [Hr [Hle Hall]]].
  repeat split; [exact Hin | exact Hr |].
  intros e [<- | He]; [exact Hle | apply Hall, He].
Qed.

Lemma find_first_exists {A : Type} (f : A -> bool) (l : list A) (x : A) :
  In x l -> f x = true -> exists m, find f l = Some m.
Proof.
  intros Hin Hf. destruct (find f l) as [m|] eqn:E; [eauto|].
  pose proof (find_none f l E x Hin). congruence.
Qed.

End MatcherProperties.

Lemma findSimilarTag_member (compare : string -> string -> Q) (newTag : string)
    (existingTags : list string) (threshold : Q) (m : string) :
  findSimilarTag compare newTag existingTags threshold = Return (Some m) ->
  In m existingTags.
Proof.
  unfold findSimilarTag.
  destruct (find _ existingTags) as [e|] eqn:Efind; cbn [truthyField].
  - destruct (truthy e).
    + intros H. injection H as <-. apply (find_some _ _ Efind).
    + destruct (StringSimilarity.findBestMatch compare (normalizeTag newTag) existingTags)
        as [best|msg] eqn:Eb; cbn [bind]; [|discriminate].
      destruct (Qle_bool _ _); intros H; [|discriminate].
      injection H as <-. apply (findBestMatch_best _ _ _ _ Eb).
  - destruct (StringSimilarity.findBestMatch compare (normalizeTag newTag) existingTags)
      as [best|msg] eqn:Eb; cbn [bind]; [|discriminate].
    destruct (Qle_bool _ _); intros H; [|discriminate].
    injection H as <-. apply (findBestMatch_best _ _ _ _ Eb).
Qed.

(** Whatever the rating and the threshold, a tag [findSimilarTag] returns is
    an entry of the existing tags: the matcher never invents a spelling. *)
Theorem findSimilarTag_returns_existing_tag :
  forall (compare : string -> string -> Q) (newTag : string)
         (existingTags : list string) (threshold : Q) (m : string),
    findSimilarTag compare newTag existingTags threshold = Return (Some m) ->
    In m existingTags.
Proof.
  intros compare newTag existingTags threshold m. apply findSimilarTag_member.
Qed.

Lemma findSimilarTag_returns_existing_tag_witness :
  In "machine-learning" ["react"; "machine-learning"].
Proof.
  apply (findSimilarTag_returns_existing_tag dice "Machine Learning"
           ["react"; "machine-learning"] defaultSimilarityThreshold).
  reflexivity.
Defined.

(** When the candidate has a non-empty normal form and some existing tag has
    the same normal form, [findSimilarTag] returns the first such existing
    tag, for every threshold and every rating: the similarity package
    decides nothing. *)
Theorem findSimilarTag_exact_match_wins :
  forall (compare : string -> string -> Q) (newTag : string)
         (existingTags : list string) (threshold : Q) (e : string),
    normalizeTag newTag <> "" ->
    In e existingTags ->
    normalizeTag e = normalizeTag newTag ->
    exists m,
      findSimilarTag compare newTag existingTags threshold = Return (Some m)
      /\ find (fun tag => String.eqb (normalizeTag tag) (normalizeTag newTag))
           existingTags = Some m
      /\ normalizeTag m = normalizeTag newTag.
Proof.
  intros compare newTag existingTags threshold e Hne Hin He.
  destruct (find_first_exists
              (fun tag => String.eqb (normalizeTag tag) (normalizeTag newTag))
              existingTags e Hin) as [m Hm].
  { apply String.eqb_eq. exact He. }
  pose proof (find_some _ _ Hm) as [_ Hnorm]. apply String.eqb_eq in Hnorm.
  exists m. repeat split; [|exact Hm | exact Hnorm].
  unfold findSimilarTag. rewrite Hm. cbn [truthyField].
  assert (Ht : truthy m = true).
  { apply truthy_true. intros ->. apply Hne. rewrite <- Hnorm. reflexivity. }
  rewrite Ht. reflexivity.
Qed.

Lemma findSimilarTag_exact_match_wins_witness :
  exists m,
    findSimilarTag (fun _ _ => 0%Q) "The Images" ["react"; "Image"; "image"] (2 # 1)%Q
    = Return (Some m)
    /\ find (fun tag => String.eqb (normalizeTag tag) (normalizeTag "The Images"))
         ["react"; "Image"; "image"] = Some m
    /\ normalizeTag m = normalizeTag "The Images".
Proof.
  apply (findSimilarTag_exact_match_wins (fun _ _ => 0%Q) "The Images"
           ["react"; "Image"; "image"] (2 # 1)%Q "image").
  - vm_compute. discriminate.
  - right. right. left. reflexivity.
  - reflexivity.
Defined.

(** When no existing tag has the candidate's normal form, the answer is
    decided by the ratings of the normalized candidate against the existing
    tags as they are spelled: a returned tag reaches the threshold and no
    existing tag rates higher; [null] means that every existing tag rates
    below the threshold. *)
Theorem findSimilarTag_fuzzy_match_is_best :
  forall (compare : string -> string -> Q) (newTag : string)
         (existingTags : list string) (threshold : Q),
    find (fun tag => String.eqb (normalizeTag tag) (normalizeTag newTag))
      existingTags = None ->
    forall r,
      findSimilarTag compare newTag existingTags threshold = Return r ->
      match r with
      | Some m =>
          (threshold <= compare (normalizeTag newTag) m)%Q
          /\ (forall e, In e existingTags ->
                        (compare (normalizeTag newTag) e
                         <= compare (normalizeTag newTag) m)%Q)
      | None =>
          forall e, In e existingTags ->
                    (compare (normalizeTag newTag) e < threshold)%Q
      end.
Proof.
  intros compare newTag existingTags threshold Hnone r.
  unfold findSimilarTag. rewrite Hnone. cbn [truthyField].
  destruct (StringSimilarity.findBestMatch compare (normalizeTag newTag) existingTags)
    as [best|msg] eqn:Eb; cbn [bind]; [|discriminate].
  destruct (findBestMatch_best _ _ _ _ Eb) as [_ [Hr Hall]].
  destruct (Qle_bool threshold (StringSimilarity.rating best)) eqn:E;
    intros H; injection H as <-.
  - apply Qle_bool_iff in E. rewrite Hr in E, Hall. split; [exact E | exact Hall].
  - intros e He. eapply Qle_lt_trans; [apply Hall, He|].
    apply Qnot_le_lt. intros H. apply Qle_bool_iff in H. congruence.
Qed.

Lemma findSimilarTag_fuzzy_match_is_best_witness :
  (defaultSimilarityThreshold <= dice (normalizeTag "Machine Learning") "machine-learning")%Q
  /\ (forall e, In e ["react"; "machine-learning"] ->
                (dice (normalizeTag "Machine Learning") e
                 <= dice (normalizeTag "Machine Learning") "machine-learning")%Q).
Proof.
  apply (findSimilarTag_fuzzy_match_is_best dice "Machine Learning"
           ["react"; "machine-learning"] defaultSimilarityThreshold eq_refl
           (Some "machine-learning")).
  reflexivity.
Defined.

(** ** [processTags] *)

Lemma length_Set_add (s : list string) (x : string) :
  List.length (Set_add s x) <= S (List.length s).
Proof.
  unfold Set_add. destruct (has s x); [lia|]. rewrite length_app. simpl. lia.
Qed.

Lemma Set_add_inv (s : list string) (x y : string) :
  In y (Set_add s x) -> In y s \/ y = x.
Proof.
  unfold Set_add. destruct (has s x); [auto|].
  intros H. apply in_app_or in H. destruct H as [H | [<- | []]]; auto.
Qed.

(** With no existing tag at all, [processTags] returns the empty list when
    every new tag is blank and throws as soon as one is not. *)
Theorem processTags_without_vocabulary :
  forall (compare : string -> string -> Q) (newTags : list string),
    processTags compare newTags []
    = if forallb (fun tag => negb (truthy (normalizeTag tag))) newTags
      then Return []
      else Throw "Bad arguments: First argument should be a string, second should be an array of strings".
Proof.
  intros compare newTags. unfold processTags.
  assert (Hloop : forall acc,
             processTags_loop compare newTags [] acc
             = if forallb (fun tag => negb (truthy (normalizeTag tag))) newTags
               then Return acc
               else Throw "Bad arguments: First argument should be a string, second should be an array of strings").
  { induction newTags as [|tag rest IH]; intros acc; [reflexivity|].
    cbn [processTags_loop forallb].
    destruct (truthy (normalizeTag tag)); cbn [negb andb]; [reflexivity | apply IH]. }
  apply Hloop.
Qed.

(** With at least one existing tag, [processTags] returns for every list of
    new tags: the empty vocabulary is the only one it throws on. *)
Theorem processTags_returns_with_vocabulary :
  forall (compare : string -> string -> Q) (newTags existingTags : list string),
    existingTags <> [] ->
    exists result, processTags compare newTags existingTags = Return result.
Proof.
  intros compare newTags existingTags Hne.
  apply (processTags_loop_returns compare existingTags Hne newTags []).
Qed.

Lemma processTags_returns_with_vocabulary_witness :
  exists result, processTags dice ["React"; "the hooks"; ""] ["zzz"] = Return result.
Proof.
  apply (processTags_returns_with_vocabulary dice ["React"; "the hooks"; ""] ["zzz"]).
  discriminate.
Defined.

(** Every tag [processTags] returns is non-empty and is either an existing
    tag or the normal form of one of the new tags; and the result holds at
    most as many tags as were proposed. *)
Theorem processTags_result_provenance :
  forall (compare : string -> string -> Q) (newTags existingTags result : list string),
    processTags compare newTags existingTags = Return result ->
    (forall r, In r result ->
               r <> ""
               /\ (In r existingTags \/ exists tag, In tag newTags /\ r = normalizeTag tag))
    /\ List.length result <= List.length newTags.
Proof.
  intros compare newTags existingTags result. unfold processTags.
  assert (Hloop : forall newTags acc result,
             processTags_loop compare newTags existingTags acc = Return result ->
             (forall r, In r result ->
                        In r acc
                        \/ (r <> ""
                            /\ (In r existingTags
                                \/ exists tag, In tag newTags /\ r = normalizeTag tag)))
             /\ List.length result <= List.length acc + List.length newTags).
  { clear. induction newTags as [|tag rest IH]; intros acc result H.
    - cbn in H. injection H as <-. split; [auto | lia].
    - cbn [processTags_loop] in H.
      destruct (truthy (normalizeTag tag)) eqn:Et; cbn [negb] in H.
      + destruct (findSimilarTag compare (normalizeTag tag) existingTags
                    defaultSimilarityThreshold) as [similarTag|msg] eqn:Ef;
          cbn [bind] in H; [|discriminate].
        assert (Hstep : exists x,
                   processTags_loop compare rest existingTags (Set_add acc x)
                   = Return result
                   /\ x <> "" /\ (In x existingTags \/ x = normalizeTag tag)).
        { destruct similarTag as [m|]; [destruct (truthy m) eqn:Em|].
          - exists m. repeat split; [exact H | apply truthy_true, Em |].
            left. eapply findSimilarTag_member. exact Ef.
          - exists (normalizeTag tag). repeat split;
              [exact H | apply truthy_true, Et | right; reflexivity].
          - exists (normalizeTag tag). repeat split;
              [exact H | apply truthy_true, Et | right; reflexivity]. }
        destruct Hstep as [x [Hx [Hne Hsrc]]].
        destruct (IH _ _ Hx) as [Hprov Hlen]. split.
        * intros r Hr. destruct (Hprov r Hr) as [Hacc | [Hr0 Hr1]].
          -- apply Set_add_inv in Hacc. destruct Hacc as [Hacc | ->]; [left; exact Hacc|].
             right. split; [exact Hne|].
             destruct Hsrc as [Hsrc | ->]; [left; exact Hsrc|].
             right. exists tag. split; [left; reflexivity | reflexivity].
          -- right. split; [exact Hr0|].
             destruct Hr1 as [Hr1 | [t [Ht ->]]]; [left; exact Hr1|].
             right. exists t. split; [right; exact Ht | reflexivity].
        * pose proof (length_Set_add acc x). cbn [List.length]. lia.
      + destruct (IH _ _ H) as [Hprov Hlen]. split.
        * intros r Hr. destruct (Hprov r Hr) as [Hacc | [Hr0 Hr1]]; [left; exact Hacc|].
          right. split; [exact Hr0|].
          destruct Hr1 as [Hr1 | [t [Ht ->]]]; [left; exact Hr1|].
          right. exists t. split; [right; exact Ht | reflexivity].
        * cbn [List.length]. lia. }
  intros H. destruct (Hloop _ _ _ H) as [Hprov Hlen]. split.
  - intros r Hr. destruct (Hprov r Hr) as [[] | Hr']. exact Hr'.
  - exact Hlen.
Qed.

Lemma processTags_result_provenance_witness :
  (forall r, In r ["image"; "rust"] ->
             r <> ""
             /\ (In r ["image"; "python"]
                 \/ exists tag, In tag ["Images"; " "; "Rust"; "image"] /\ r = normalizeTag tag))
  /\ List.length ["image"; "rust"] <= List.length ["Images"; " "; "Rust"; "image"].
Proof.
  apply (processTags_result_provenance dice ["Images"; " "; "Rust"; "image"]
           ["image"; "python"] ["image"; "rust"]).
  reflexivity.
Defined.

(** ** The sub-operations of the provider variants *)

Lemma trimEnd_idem (s : string) : trimEnd (trimEnd s) = trimEnd s.
Proof.
  induction s as [|c s IH]; [reflexivity|].
  cbn [trimEnd]. destruct (trimEnd s) as [|d r] eqn:E.
  - destruct (isWhiteSpace c) eqn:Ec; [reflexivity|].
    cbn [trimEnd]. rewrite Ec. reflexivity.
  - cbn [trimEnd]. cbn [trimEnd] in IH. rewrite IH. reflexivity.
Qed.

Lemma trimStart_head (s : string) :
  match trimStart s with
  | String c _ => isWhiteSpace c = false
  | EmptyString => True
  end.
Proof.
  induction s as [|c s IH]; [exact I|].
  cbn [trimStart]. destruct (isWhiteSpace c) eqn:Ec; [exact IH | exact Ec].
Qed.

Lemma trimEnd_head (c : ascii) (s : string) :
  isWhiteSpace c = false -> exists r, trimEnd (String c s) = String c r.
Proof.
  intros Hc. cbn [trimEnd]. destruct (trimEnd s); [rewrite Hc|]; eauto.
Qed.

Lemma trim_idem (s : string) : trim (trim s) = trim s.
Proof.
  unfold trim. pose proof (trimStart_head s) as H.
  destruct (trimStart s) as [|c r]; [reflexivity|].
  destruct (trimEnd_head c r H) as [r' Hr]. rewrite Hr.
  cbn [trimStart]. rewrite H, <- Hr. apply trimEnd_idem.
Qed.

Lemma lowerTrimEach_shape (elements : list Json) (cleaned : list string) :
  lowerTrimEach elements = Return cleaned ->
  forall t, In t cleaned -> exists raw, t = trim (toLowerCase raw).
Proof.
  revert cleaned. induction elements as [|e rest IH]; intros cleaned H t Hin.
  - simpl in H. injection H as <-. destruct Hin.
  - destruct e; simpl in H; try discriminate.
    destruct (lowerTrimEach rest) as [tail|m]; simpl in H; [|discriminate].
    injection H as <-. destruct Hin as [<-|Hin]; [eauto|].
    eapply IH; [reflexivity | exact Hin].
Qed.

(** What the cleaning and the filter of [generateTags] guarantee of a tag
    they let through *)
Lemma kept_tag_valid (genericTerms : list string) (parsed : Json)
    (cleaned : list string) (t : string) :
  lowerTrimAll parsed = Return cleaned ->
  In t (filter (keepTag genericTerms) cleaned) ->
  t <> "" /\ String.length t <= 50 /\ toLowerCase t = t /\ trim t = t
  /\ ~ In t genericTerms.
Proof.
  intros Hc Hin. apply filter_In in Hin. destruct Hin as [Hin Hkeep].
  assert (Hraw : exists raw, t = trim (toLowerCase raw)).
  { destruct parsed; simpl in Hc; try discriminate.
    eapply lowerTrimEach_shape; eassumption. }
  destruct Hraw as [raw ->].
  unfold keepTag in Hkeep. rewrite lower_trim in Hkeep.
  repeat (apply andb_true_iff in Hkeep; destruct Hkeep as [Hkeep ?]).
  repeat split.
  - apply truthy_true. exact Hkeep.
  - apply Nat.leb_le. assumption.
  - apply lower_trim.
  - apply trim_idem.
  - intros Hg.
    assert (Hinc : Array_includes genericTerms (trim (toLowerCase raw)) = true).
    { unfold Array_includes. apply existsb_exists. eexists.
      split; [exact Hg | apply String.eqb_refl]. }
    rewrite Hinc in *. discriminate.
Qed.

Section SubOperationProperties.

Variable respond : Call -> Completion (option string).
Variable JSON_parse : string -> option Json.

Lemma OpenAI_generateTags_valid (content url : string) (c : Client) (t : string) :
  In t (settle (fst (OpenAIService.generateTags respond JSON_parse content url c)) []) ->
  t <> "" /\ String.length t <= 50 /\ toLowerCase t = t /\ trim t = t
  /\ ~ In t OpenAIService.genericTerms.
Proof.
  cbn [fst OpenAIService.generateTags settle].
  destruct (respond _) as [[tagContent|]|]; try (intros []).
  destruct (JSON_parse tagContent) as [parsed|]; [|intros []].
  destruct (lowerTrimAll parsed) as [cleaned|] eqn:Hc; [|intros []].
  apply (kept_tag_valid _ _ _ _ Hc).
Qed.

Lemma Claude_generateTags_valid (content url : string) (c : Client) (t : string) :
  In t (settle (fst (ClaudeService.generateTags respond JSON_parse content url c)) []) ->
  t <> "" /\ String.length t <= 50 /\ toLowerCase t = t /\ trim t = t
  /\ ~ In t ClaudeService.genericTerms.
Proof.
  cbn [fst ClaudeService.generateTags settle].
  destruct (respond _) as [[tagContent|]|]; try (intros []).
  destruct (JSON_parse tagContent) as [parsed|]; [|intros []].
  destruct (lowerTrimAll parsed) as [cleaned|] eqn:Hc; [|intros []].
  apply (kept_tag_valid _ _ _ _ Hc).
Qed.

Lemma category_checked (answer : Completion (option string)) :
  Array_includes ["Article"; "Video"; "Research"]
    match answer with
    | Return (Some text) =>
        if Array_includes ["Article"; "Video"; "Research"] (trim text)
        then trim text else "Article"
    | _ => "Article"
    end = true.
Proof.
  destruct answer as [[text|]|]; try reflexivity.
  destruct (Array_includes _ (trim text)) eqn:E; [exact E | reflexivity].
Qed.

Lemma OpenAI_determineCategory_valid (content url : string) (c : Client) :
  Array_includes ["Article"; "Video"; "Research"]
    (settle (fst (OpenAIService.determineCategory respond content url c)) "Article") = true.
Proof.
  unfold OpenAIService.determineCategory.
  destruct (_ || _ || _ || _); [reflexivity|].
  destruct (_ || _ || _ || _); [reflexivity|].
  cbn [fst settle]. apply category_checked.
Qed.

Lemma Claude_determineCategory_valid (content url : string) (c : Client) :
  Array_includes ["Article"; "Video"; "Research"]
    (settle (fst (ClaudeService.determineCategory respond content url c)) "Article") = true.
Proof.
  unfold ClaudeService.determineCategory.
  destruct (_ || _ || _ || _); [reflexivity|].
  destruct (_ || _ || _ || _); [reflexivity|].
  cbn [fst settle]. apply category_checked.
Qed.

Lemma summary_checked (answer : Completion (option string)) :
  match answer with
  | Return (Some text) =>
      if truthy (trim text) then trim text else "No summary available."
  | _ => "Summary generation failed. Please try again later."
  end <> "".
Proof.
  destruct answer as [[text|]|]; try discriminate.
  destruct (truthy (trim text)) eqn:E; [apply truthy_true, E | discriminate].
Qed.

End SubOperationProperties.

(** Whatever the provider answers (a category, other text, a malformed
    response, a rejection), [determineCategory] of either variant is
    fulfilled with one of Article, Video and Research. *)
Theorem determineCategory_yields_a_category :
  forall (respond : Call -> Completion (option string))
         (content url : string) (c : Client),
    (exists v log,
        OpenAIService.determineCategory respond content url c = (Return v, log)
        /\ Array_includes ["Article"; "Video"; "Research"] v = true)
    /\ (exists v log,
           ClaudeService.determineCategory respond content url c = (Return v, log)
           /\ Array_includes ["Article"; "Video"; "Research"] v = true).
Proof.
  intros respond content url c.
  destruct (sub_operations_never_reject respond (fun _ => None) content url c)
    as [_ [_ [[v Hv] [_ [_ [v' Hv']]]]]].
  split.
  - pose proof (OpenAI_determineCategory_valid respond content url c) as H.
    destruct (OpenAIService.determineCategory respond content url c) as [r log].
    cbn [fst] in *. subst r. exists v, log. split; [reflexivity | exact H].
  - pose proof (Claude_determineCategory_valid respond content url c) as H.
    destruct (ClaudeService.determineCategory respond content url c) as [r log].
    cbn [fst] in *. subst r. exists v', log. split; [reflexivity | exact H].
Qed.


(** Every tag [generateTags] of either variant returns is non-empty, at most
    50 characters long, in lower case, trimmed, and not one of the variant's
    generic terms. *)
Theorem generateTags_returns_clean_tags :
  forall (respond : Call -> Completion (option string))
         (JSON_parse : string -> option Json)
         (content url : string) (c : Client) (t : string),
    (In t (settle (fst (OpenAIService.generateTags respond JSON_parse content url c)) []) ->
     t <> "" /\ String.length t <= 50 /\ toLowerCase t = t /\ trim t = t
     /\ ~ In t OpenAIService.genericTerms)
    /\ (In t (settle (fst (ClaudeService.generateTags respond JSON_parse content url c)) []) ->
        t <> "" /\ String.length t <= 50 /\ toLowerCase t = t /\ trim t = t
        /\ ~ In t ClaudeService.genericTerms).
Proof.
  intros respond JSON_parse content url c t. split.
  - apply OpenAI_generateTags_valid.
  - apply Claude_generateTags_valid.
Qed.

Lemma generateTags_returns_clean_tags_witness :
  "articles" <> "" /\ String.length "articles" <= 50
  /\ toLowerCase "articles" = "articles" /\ trim "articles" = "articles"
  /\ ~ In "articles" ClaudeService.genericTerms.
Proof.
  apply (generateTags_returns_clean_tags respondArticles parseArticles "text"
           "https://example.com" (sampleClient Claude) "articles").
  left. reflexivity.
Defined.

Lemma lowerTrimEach_rejects (elements : list Json) (e : Json) :
  In e elements -> (forall s, e <> JString s) ->
  exists message, lowerTrimEach elements = Throw message.
Proof.
  induction elements as [|x rest IH]; intros Hin Hnot; [destruct Hin|].
  destruct Hin as [-> | Hin].
  - destruct e; simpl; eauto. exfalso. eapply Hnot. reflexivity.
  - destruct x; simpl; eauto.
    destruct (IH Hin Hnot) as [message ->]. simpl. eauto.
Qed.

(** [generateTags] rejects the whole batch: when the provider's text does not
    parse, or parses to something that is not an array, or to an array with
    one element that is not a string, no tag is returned, whatever the other
    elements are. *)
Theorem generateTags_rejects_malformed_batch :
  forall (respond : Call -> Completion (option string))
         (JSON_parse : string -> option Json)
         (content url : string) (c : Client) (text : string),
    (forall call, respond call = Return (Some text)) ->
    JSON_parse text = None
    \/ (exists parsed, JSON_parse text = Some parsed
                       /\ forall elements, parsed <> JArray elements)
    \/ (exists elements e, JSON_parse text = Some (JArray elements)
                           /\ In e elements /\ forall s, e <> JString s) ->
    OpenAIService.generateTags respond JSON_parse content url c
    = (Return [], snd (OpenAIService.generateTags respond JSON_parse content url c))
    /\ ClaudeService.generateTags respond JSON_parse content url c
       = (Return [], snd (ClaudeService.generateTags respond JSON_parse content url c)).
Proof.
  intros respond JSON_parse content url c text Hrespond Hbad.
  assert (Hclean : match JSON_parse text with
                   | Some parsed =>
                       match lowerTrimAll parsed with
                       | Return _ => False
                       | Throw _ => True
                       end
                   | None => True
                   end).
  { destruct Hbad as [-> | [[parsed [-> Hnot]] | [elements [e [-> [Hin Hnot]]]]]].
    - exact I.
    - destruct parsed; try exact I. exfalso. eapply Hnot. reflexivity.
    - cbn [lowerTrimAll]. destruct (lowerTrimEach_rejects _ _ Hin Hnot) as [m ->].
      exact I. }
  split.
  - unfold OpenAIService.generateTags. cbn [snd]. rewrite Hrespond.
    destruct (JSON_parse text) as [parsed|]; [|reflexivity].
    destruct (lowerTrimAll parsed); [destruct Hclean | reflexivity].
  - unfold ClaudeService.generateTags. cbn [snd]. rewrite Hrespond.
    destruct (JSON_parse text) as [parsed|]; [|reflexivity].
    destruct (lowerTrimAll parsed); [destruct Hclean | reflexivity].
Qed.

Lemma generateTags_rejects_malformed_batch_witness :
  OpenAIService.generateTags respondArticles
    (fun _ => Some (JArray [JString "rust"; JNumber (7 # 1)%Q; JString "react"]))
    "text" "https://example.com" (sampleClient OpenAI)
  = (Return [],
     snd (OpenAIService.generateTags respondArticles
            (fun _ => Some (JArray [JString "rust"; JNumber (7 # 1)%Q; JString "react"]))
            "text" "https://example.com" (sampleClient OpenAI)))
  /\ ClaudeService.generateTags respondArticles
       (fun _ => Some (JArray [JString "rust"; JNumber (7 # 1)%Q; JString "react"]))
       "text" "https://example.com" (sampleClient OpenAI)
     = (Return [],
        snd (ClaudeService.generateTags respondArticles
               (fun _ => Some (JArray [JString "rust"; JNumber (7 # 1)%Q; JString "react"]))
               "text" "https://example.com" (sampleClient OpenAI))).
Proof.
  apply (generateTags_rejects_malformed_batch respondArticles
           (fun _ => Some (JArray [JString "rust"; JNumber (7 # 1)%Q; JString "react"]))
           "text" "https://example.com" (sampleClient OpenAI) articlesJson).
  - intros call. reflexivity.
  - right. right. exists [JString "rust"; JNumber (7 # 1)%Q; JString "react"].
    exists (JNumber (7 # 1)%Q). split; [reflexivity|]. split.
    + right. left. reflexivity.
    + intros s. discriminate.
Defined.

(** ** [analyzeContent] of the provider variants *)



(** With a credential, [analyzeContent] of either variant issues two provider
    calls when the URL matches a video or research pattern of the variant and
    three calls otherwise; without a credential it issues none. *)
Theorem analyzeContent_call_count :
  forall (respond : Call -> Completion (option string))
         (JSON_parse : string -> option Json)
         (url content userApiKey : string),
    let calls (v : Variant) :=
      if truthy userApiKey then
        if matchesAny (toLowerCase url) (videoPatterns v)
           || matchesAny (toLowerCase url) researchPatterns
        then 2 else 3
      else 0 in
    List.length (snd (OpenAIService.analyzeContent respond JSON_parse url content userApiKey))
    = calls OpenAI
    /\ List.length (snd (ClaudeService.analyzeContent respond JSON_parse url content userApiKey))
       = calls Claude.
Proof.
  intros respond JSON_parse url content userApiKey calls. unfold calls.
  destruct (truthy userApiKey) eqn:Ek.
  - apply truthy_true in Ek. split.
    + unfold OpenAIService.analyzeContent.
      rewrite OpenAI_analyzeContentWith_composed by exact Ek.
      unfold composed. cbn [snd OpenAIService.generateSummary OpenAIService.generateTags].
      unfold OpenAIService.determineCategory, matchesAny, videoPatterns, researchPatterns.
      cbn [existsb]. rewrite !orb_false_r, <- !orb_assoc.
      destruct (includes (toLowerCase url) "youtube.com"),
        (includes (toLowerCase url) "vimeo.com"),
        (includes (toLowerCase url) "dailymotion.com"),
        (includes (toLowerCase url) "video"),
        (includes (toLowerCase url) "arxiv.org"),
        (includes (toLowerCase url) "research"),
        (includes (toLowerCase url) "paper"),
        (includes (toLowerCase url) "doi.org"); reflexivity.
    + unfold ClaudeService.analyzeContent.
      rewrite Claude_analyzeContentWith_composed by exact Ek.
      unfold composed. cbn [snd ClaudeService.generateSummary ClaudeService.generateTags].
      unfold ClaudeService.determineCategory, matchesAny, videoPatterns, researchPatterns.
      cbn [existsb]. rewrite !orb_false_r, <- !orb_assoc.
      destruct (includes (toLowerCase url) "youtube.com"),
        (includes (toLowerCase url) "youtu.be"),
        (includes (toLowerCase url) "vimeo.com"),
        (includes (toLowerCase url) "dailymotion.com"),
        (includes (toLowerCase url) "arxiv.org"),
        (includes (toLowerCase url) "research"),
        (includes (toLowerCase url) "paper"),
        (includes (toLowerCase url) "doi.org"); reflexivity.
  - unfold OpenAIService.analyzeContent, OpenAIService.analyzeContentWith,
      OpenAIService.createOpenAIClient, ClaudeService.analyzeContent,
      ClaudeService.analyzeContentWith, ClaudeService.createClaudeClient.
    rewrite Ek. split; reflexivity.
Qed.

Lemma composed_openai_wellFormed
    (respond : Call -> Completion (option string)) (JSON_parse : string -> option Json)
    (url content : string) (c : Client) :
  wellFormed OpenAIService.genericTerms
    (settle (fst (composed (OpenAIService.generateSummary respond content c)
                    (OpenAIService.generateTags respond JSON_parse content url c)
                    (OpenAIService.determineCategory respond content url c)))
       {| summary := "x"; tags := []; category := "Article" |}).
Proof.
  unfold composed, wellFormed. cbn [fst settle summary tags category]. repeat split.
  - cbn [OpenAIService.generateSummary fst settle]. apply summary_checked.
  - apply OpenAI_determineCategory_valid.
  - apply (OpenAI_generateTags_valid _ _ _ _ _ _ H).
  - apply (OpenAI_generateTags_valid _ _ _ _ _ _ H).
  - apply (OpenAI_generateTags_valid _ _ _ _ _ _ H).
Qed.

Lemma composed_claude_wellFormed
    (respond : Call -> Completion (option string)) (JSON_parse : string -> option Json)
    (url content : string) (c : Client) :
  wellFormed ClaudeService.genericTerms
    (settle (fst (composed (ClaudeService.generateSummary respond content url c)
                    (ClaudeService.generateTags respond JSON_parse content url c)
                    (ClaudeService.determineCategory respond content url c)))
       {| summary := "x"; tags := []; category := "Article" |}).
Proof.
  unfold composed, wellFormed. cbn [fst settle summary tags category]. repeat split.
  - cbn [ClaudeService.generateSummary fst settle]. apply summary_checked.
  - apply Claude_determineCategory_valid.
  - apply (Claude_generateTags_valid _ _ _ _ _ _ H).
  - apply (Claude_generateTags_valid _ _ _ _ _ _ H).
  - apply (Claude_generateTags_valid _ _ _ _ _ _ H).
Qed.

Lemma OpenAI_analyzeContent_wellFormed
    (respond : Call -> Completion (option string)) (JSON_parse : string -> option Json)
    (url content userApiKey : string) :
  exists r log,
    OpenAIService.analyzeContent respond JSON_parse url content userApiKey = (Return r, log)
    /\ wellFormed OpenAIService.genericTerms r
    /\ forall call, In call log ->
                    client call = {| variant := OpenAI; apiKey := userApiKey |}.
Proof.
  destruct (truthy userApiKey) eqn:Ek.
  - apply truthy_true in Ek. unfold OpenAIService.analyzeContent.
    rewrite OpenAI_analyzeContentWith_composed by exact Ek. cbv zeta.
    eexists. eexists. split; [reflexivity|]. split.
    + apply (composed_openai_wellFormed respond JSON_parse url content).
    + intros call. cbn [snd OpenAIService.generateSummary OpenAIService.generateTags].
      unfold OpenAIService.determineCategory.
      destruct (_ || _ || _ || _); [|destruct (_ || _ || _ || _)]; cbn [snd app In];
        intuition (subst; reflexivity).
  - unfold OpenAIService.analyzeContent, OpenAIService.analyzeContentWith,
      OpenAIService.createOpenAIClient. rewrite Ek. cbn [negb].
    eexists. eexists. split; [reflexivity|]. split.
    + unfold wellFormed. cbn [summary tags category].
      split; [discriminate|]. split; [reflexivity|]. intros x [].
    + intros call [].
Qed.

Lemma Claude_analyzeContent_wellFormed
    (respond : Call -> Completion (option string)) (JSON_parse : string -> option Json)
    (url content userApiKey : string) :
  exists r log,
    ClaudeService.analyzeContent respond JSON_parse url content userApiKey = (Return r, log)
    /\ wellFormed ClaudeService.genericTerms r
    /\ forall call, In call log ->
                    client call = {| variant := Claude; apiKey := userApiKey |}.
Proof.
  destruct (truthy userApiKey) eqn:Ek.
  - apply truthy_true in Ek. unfold ClaudeService.analyzeContent.
    rewrite Claude_analyzeContentWith_composed by exact Ek. cbv zeta.
    eexists. eexists. split; [reflexivity|]. split.
    + apply (composed_claude_wellFormed respond JSON_parse url content).
    + intros call. cbn [snd ClaudeService.generateSummary ClaudeService.generateTags].
      unfold ClaudeService.determineCategory.
      destruct (_ || _ || _ || _); [|destruct (_ || _ || _ || _)]; cbn [snd app In];
        intuition (subst; reflexivity).
  - unfold ClaudeService.analyzeContent, ClaudeService.analyzeContentWith,
      ClaudeService.createClaudeClient. rewrite Ek. cbn [negb].
    eexists. eexists. split; [reflexivity|]. split.
    + unfold wellFormed. cbn [summary tags category].
      split; [discriminate|]. split; [reflexivity|]. intros x [].
    + intros call [].
Qed.

(** For every API key (the empty one too) and every behaviour of the
    provider, [analyzeContent] of either variant returns a well-formed
    result: a non-empty summary, a category of the enumeration, and tags that
    are non-empty, at most 50 characters long and not generic. *)
Theorem provider_analysis_is_well_formed :
  forall (respond : Call -> Completion (option string))
         (JSON_parse : string -> option Json)
         (url content userApiKey : string),
    (exists r log,
        OpenAIService.analyzeContent respond JSON_parse url content userApiKey
        = (Return r, log)
        /\ wellFormed OpenAIService.genericTerms r)
    /\ (exists r log,
           ClaudeService.analyzeContent respond JSON_parse url content userApiKey
           = (Return r, log)
           /\ wellFormed ClaudeService.genericTerms r).
Proof.
  intros respond JSON_parse url content userApiKey. split.
  - destruct (OpenAI_analyzeContent_wellFormed respond JSON_parse url content userApiKey)
      as [r [log [H [Hw _]]]]. eauto.
  - destruct (Claude_analyzeContent_wellFormed respond JSON_parse url content userApiKey)
      as [r [log [H [Hw _]]]]. eauto.
Qed.

(** ** The dispatcher *)

Lemma wellFormed_weaken (g g' : list string) (r : AnalysisResult) :
  incl g' g -> wellFormed g r -> wellFormed g' r.
Proof.
  intros Hincl [Hs [Hc Ht]]. repeat split; try assumption; try apply (Ht t H).
  intros Hin. apply (Ht t H). apply Hincl. exact Hin.
Qed.

Lemma dispatch_cases
    (respond : Call -> Completion (option string)) (JSON_parse : string -> option Json)
    (url content : string) (user : AiService.User) :
  (exists message,
      AiService.dispatch respond JSON_parse url content user = (Throw message, []))
  \/ (AiService.aiProvider user = Some "openai"
      /\ truthyField (AiService.openAiKey user) = true
      /\ AiService.dispatch respond JSON_parse url content user
         = OpenAIService.analyzeContent respond JSON_parse url content
             (AiService.orEmpty (AiService.openAiKey user)))
  \/ (AiService.aiProvider user = Some "claude"
      /\ truthyField (AiService.claudeKey user) = true
      /\ AiService.dispatch respond JSON_parse url content user
         = ClaudeService.analyzeContent respond JSON_parse url content
             (AiService.orEmpty (AiService.claudeKey user))).
Proof.
  unfold AiService.dispatch.
  destruct (truthyField (AiService.aiProvider user)) eqn:Ep; cbn [negb]; [|eauto].
  destruct (negb (truthyField (AiService.openAiKey user))
            && negb (truthyField (AiService.claudeKey user))); [eauto|].
  apply truthyField_some in Ep. destruct Ep as [Ep _].
  destruct (String.eqb (AiService.orEmpty (AiService.aiProvider user)) "openai") eqn:Eo.
  - apply String.eqb_eq in Eo. rewrite Eo in Ep.
    destruct (truthyField (AiService.openAiKey user)) eqn:Ek; cbn [negb]; [|eauto].
    right. left. auto.
  - destruct (String.eqb (AiService.orEmpty (AiService.aiProvider user)) "claude") eqn:Ec;
      [|eauto].
    apply String.eqb_eq in Ec. rewrite Ec in Ep.
    destruct (truthyField (AiService.claudeKey user)) eqn:Ek; cbn [negb]; [|eauto].
    right. right. auto.
Qed.

(** Every provider call the dispatcher issues goes to the provider the user
    selected, with the key stored for that provider: the other provider and
    the other key are never used. *)
Theorem dispatcher_calls_selected_provider_only :
  forall (respond : Call -> Completion (option string))
         (JSON_parse : string -> option Json)
         (url content : string) (user : AiService.User) (call : Call),
    In call (snd (AiService.analyzeContent respond JSON_parse url content user)) ->
    (AiService.aiProvider user = Some "openai"
     /\ variant (client call) = OpenAI
     /\ AiService.openAiKey user = Some (apiKey (client call)))
    \/ (AiService.aiProvider user = Some "claude"
        /\ variant (client call) = Claude
        /\ AiService.claudeKey user = Some (apiKey (client call))).
Proof.
  intros respond JSON_parse url content user call.
  unfold AiService.analyzeContent.
  destruct (dispatch_cases respond JSON_parse url content user)
    as [[message ->] | [[Hp [Hk ->]] | [Hp [Hk ->]]]].
  - intros [].
  - destruct (OpenAI_analyzeContent_wellFormed respond JSON_parse url content
                (AiService.orEmpty (AiService.openAiKey user)))
      as [r [log [-> [_ Hlog]]]].
    cbn [snd]. intros Hin. left. rewrite (Hlog call Hin). cbn [variant apiKey client].
    repeat split; [exact Hp|]. apply truthyField_some in Hk. apply Hk.
  - destruct (Claude_analyzeContent_wellFormed respond JSON_parse url content
                (AiService.orEmpty (AiService.claudeKey user)))
      as [r [log [-> [_ Hlog]]]].
    cbn [snd]. intros Hin. right. rewrite (Hlog call Hin). cbn [variant apiKey client].
    repeat split; [exact Hp|]. apply truthyField_some in Hk. apply Hk.
Qed.

Lemma dispatcher_calls_selected_provider_only_witness :
  (AiService.aiProvider claudeUser = Some "openai"
   /\ variant (client (firstCallFor claudeUser)) = OpenAI
   /\ AiService.openAiKey claudeUser = Some (apiKey (client (firstCallFor claudeUser))))
  \/ (AiService.aiProvider claudeUser = Some "claude"
      /\ variant (client (firstCallFor claudeUser)) = Claude
      /\ AiService.claudeKey claudeUser = Some (apiKey (client (firstCallFor claudeUser)))).
Proof.
  apply (dispatcher_calls_selected_provider_only respondArticles parseArticles
           "https://example.com" "text" claudeUser (firstCallFor claudeUser)).
  left. reflexivity.
Defined.

(** For every user record (any provider selection, keys present or not) and
    every behaviour of the provider, the dispatcher returns a well-formed
    result: a non-empty summary, a category of the enumeration, and tags that
    are non-empty, at most 50 characters long and none of other,
    miscellaneous, general, misc, various, article, content. *)
Theorem dispatcher_result_is_well_formed :
  forall (respond : Call -> Completion (option string))
         (JSON_parse : string -> option Json)
         (url content : string) (user : AiService.User),
    exists r log,
      AiService.analyzeContent respond JSON_parse url content user = (Return r, log)
      /\ wellFormed OpenAIService.genericTerms r.
Proof.
  intros respond JSON_parse url content user. unfold AiService.analyzeContent.
  destruct (dispatch_cases respond JSON_parse url content user)
    as [[message ->] | [[Hp [Hk ->]] | [Hp [Hk ->]]]].
  - eexists. eexists. split; [reflexivity|].
    unfold wellFormed. cbn [summary tags category].
    split; [simpl; discriminate|]. split; [reflexivity|]. intros x [].
  - destruct (OpenAI_analyzeContent_wellFormed respond JSON_parse url content
                (AiService.orEmpty (AiService.openAiKey user)))
      as [r [log [-> [Hw _]]]]. eauto.
  - destruct (Claude_analyzeContent_wellFormed respond JSON_parse url content
                (AiService.orEmpty (AiService.claudeKey user)))
      as [r [log [-> [Hw _]]]].
    exists r, log. split; [reflexivity|].
    apply (wellFormed_weaken ClaudeService.genericTerms); [|exact Hw].
    intros x Hx. simpl in *. intuition.
Qed.

(** ** The pre-save hook and the vocabulary of the bookmark routes *)

Lemma fold_Set_add_In (l acc : list string) (t : string) :
  In t (fold_left Set_add l acc) <-> In t acc \/ In t l.
Proof.
  revert acc. induction l as [|x l IH]; intros acc; cbn [fold_left].
  - simpl. tauto.
  - rewrite IH. split.
    + intros [H | H]; [|auto using in_cons].
      apply Set_add_inv in H. destruct H as [H | ->]; [auto | right; left; reflexivity].
    + intros [H | [<- | H]]; [left; apply Set_add_incl, H | left; apply Set_add_In | auto].
Qed.

Lemma fold_Set_add_NoDup (l acc : list string) :
  NoDup acc -> NoDup (fold_left Set_add l acc).
Proof.
  revert acc. induction l as [|x l IH]; intros acc H; cbn [fold_left]; [exact H|].
  apply IH, Set_add_NoDup, H.
Qed.

Lemma fold_Set_add_fresh (l acc : list string) :
  NoDup (acc ++ l) -> fold_left Set_add l acc = (acc ++ l)%list.
Proof.
  revert acc. induction l as [|x l IH]; intros acc H; cbn [fold_left].
  - rewrite app_nil_r. reflexivity.
  - rewrite Set_add_fresh.
    + rewrite IH; rewrite <- app_assoc; [reflexivity | exact H].
    + apply NoDup_remove_2 in H. intros Hin. apply H, in_or_app. left. exact Hin.
Qed.

(** After the pre-save hook a bookmark's tags are exactly its tags trimmed,
    each once; and running the hook again changes nothing. *)
Theorem preSaveTags_trims_and_deduplicates :
  forall tags : option (list string),
    NoDup (BookmarkModel.preSaveTags tags)
    /\ (forall t, In t (BookmarkModel.preSaveTags tags) <->
                  exists raw, In raw (match tags with Some l => l | None => [] end)
                              /\ t = trim raw)
    /\ BookmarkModel.preSaveTags (Some (BookmarkModel.preSaveTags tags))
       = BookmarkModel.preSaveTags tags.
Proof.
  intros tags. unfold BookmarkModel.preSaveTags.
  set (l := match tags with Some l => l | None => [] end).
  assert (Hin : forall t, In t (fold_left Set_add (map trim l) []) <->
                          exists raw, In raw l /\ t = trim raw).
  { intros t. rewrite fold_Set_add_In, in_map_iff. split.
    - intros [[] | [raw [<- H]]]. eauto.
    - intros [raw [H ->]]. right. eauto. }
  assert (Hnd : NoDup (fold_left Set_add (map trim l) [])).
  { apply fold_Set_add_NoDup. constructor. }
  split; [exact Hnd|]. split; [exact Hin|].
  assert (Hmap : map trim (fold_left Set_add (map trim l) [])
                 = fold_left Set_add (map trim l) []).
  { rewrite <- (map_id (fold_left Set_add (map trim l) [])) at 2.
    apply map_ext_in. intros t Ht. apply Hin in Ht. destruct Ht as [raw [_ ->]].
    apply trim_idem. }
  rewrite Hmap. apply fold_Set_add_fresh. exact Hnd.
Qed.

(** The vocabulary the bookmark routes hand to [processTags] holds exactly
    the tags of the user's bookmarks, each once. *)
Theorem existingTagsOf_collects_each_tag_once :
  forall existingBookmarks : list (option (list string)),
    NoDup (BookmarksRoute.existingTagsOf existingBookmarks)
    /\ forall t, In t (BookmarksRoute.existingTagsOf existingBookmarks) <->
                 exists l, In (Some l) existingBookmarks /\ In t l.
Proof.
  intros bs. unfold BookmarksRoute.existingTagsOf. split.
  - apply fold_Set_add_NoDup. constructor.
  - intros t. rewrite fold_Set_add_In, in_flat_map. split.
    + intros [[] | [[l|] [Hb Ht]]]; [eauto | destruct Ht].
    + intros [l [Hb Ht]]. right. exists (Some l). auto.
Qed.

Lemma processTags_loop_nil (compare : string -> string -> Q) (newTags acc : list string) :
  (exists tag, In tag newTags /\ normalizeTag tag <> "") ->
  exists message, processTags_loop compare newTags [] acc = Throw message.
Proof.
  induction newTags as [|tag rest IH]; intros [t [Hin Ht]]; [destruct Hin|].
  cbn [processTags_loop]. destruct (truthy (normalizeTag tag)) eqn:E; cbn [negb].
  - cbn. eauto.
  - apply IH. destruct Hin as [-> | Hin]; [|eauto].
    apply truthy_false in E. contradiction.
Qed.

(** For a user none of whose bookmarks has a tag, the vocabulary is empty and
    the routes' call [processTags(tags, existingTags)] throws as soon as one
    proposed tag is not blank: the first tagged bookmark cannot be processed. *)
Theorem processTags_throws_for_untagged_user :
  forall (compare : string -> string -> Q)
         (existingBookmarks : list (option (list string))) (newTags : list string),
    (forall tags, In tags existingBookmarks -> tags = None \/ tags = Some []) ->
    (exists tag, In tag newTags /\ normalizeTag tag <> "") ->
    exists message,
      processTags compare newTags (BookmarksRoute.existingTagsOf existingBookmarks)
      = Throw message.
Proof.
  intros compare bs newTags Hnone Htag.
  assert (Hempty : BookmarksRoute.existingTagsOf bs = []).
  { unfold BookmarksRoute.existingTagsOf.
    replace (flat_map _ bs) with (@nil string); [reflexivity|].
    symmetry. induction bs as [|b bs IH]; [reflexivity|].
    cbn [flat_map]. rewrite IH by (intros tags H; apply Hnone; right; exact H).
    destruct (Hnone b (or_introl eq_refl)) as [-> | ->]; reflexivity. }
  rewrite Hempty. apply processTags_loop_nil. exact Htag.
Qed.

Lemma processTags_throws_for_untagged_user_witness :
  exists message,
    processTags dice ["react"; "hooks"]
      (BookmarksRoute.existingTagsOf [None; Some []; None])
    = Throw message.
Proof.
  apply (processTags_throws_for_untagged_user dice [None; Some []; None]
           ["react"; "hooks"]).
  - intros tags [<- | [<- | [<- | []]]]; auto.
  - exists "react". split; [left; reflexivity | vm_compute; discriminate].
Defined.

(** ** The cleaning of the fetched page text *)

Import ContentFetcher.

Lemma singleSpaced_replaceRuns (b : bool) (s : string) :
  singleSpaced b (replaceRuns isWhiteSpace b s) = true.
Proof.
  revert b. induction s as [|c s IH]; intros b; [reflexivity|].
  cbn [replaceRuns]. destruct (isWhiteSpace c) eqn:Ec.
  - destruct b; [apply IH|]. cbn [singleSpaced].
    change (isWhiteSpace " ") with true. cbn. apply IH.
  - cbn [singleSpaced]. rewrite Ec. apply IH.
Qed.

Lemma narrower_class (c : ascii) :
  (isLineFeed c = true \/ isTab c = true) ->
  isWhiteSpace c = true /\ Ascii.eqb c " " = false.
Proof.
  destruct c as [[] [] [] [] [] [] [] []]; vm_compute; intuition discriminate.
Qed.

(** On a single-spaced text a replacement of runs of line feeds or of tabs
    finds nothing to replace. *)
Lemma replaceRuns_nothing (p : ascii -> bool) (b b' : bool) (s : string) :
  (forall c, p c = true -> isWhiteSpace c = true /\ Ascii.eqb c " " = false) ->
  singleSpaced b s = true -> replaceRuns p b' s = s.
Proof.
  intros Hp. revert b b'. induction s as [|c s IH]; intros b b' H; [reflexivity|].
  cbn [replaceRuns]. cbn [singleSpaced] in H. destruct (p c) eqn:Epc.
  - destruct (Hp c Epc) as [Hw He]. rewrite Hw, He in H. discriminate.
  - f_equal. destruct (isWhiteSpace c).
    + apply andb_true_iff in H. destruct H as [_ H]. apply (IH true false H).
    + apply (IH false false H).
Qed.

Lemma replaceRuns_fixed (b : bool) (s : string) :
  singleSpaced b s = true -> replaceRuns isWhiteSpace b s = s.
Proof.
  revert b. induction s as [|c s IH]; intros b H; [reflexivity|].
  cbn [replaceRuns]. cbn [singleSpaced] in H. destruct (isWhiteSpace c).
  - apply andb_true_iff in H. destruct H as [H Hs].
    apply andb_true_iff in H. destruct H as [Hc Hb].
    apply Ascii.eqb_eq in Hc. apply negb_true_iff in Hb. subst b c.
    rewrite (IH true Hs). reflexivity.
  - rewrite (IH false H). reflexivity.
Qed.

Lemma singleSpaced_weaken (b : bool) (s : string) :
  singleSpaced b s = true -> singleSpaced false s = true.
Proof.
  destruct s as [|c s]; [reflexivity|]. cbn [singleSpaced].
  destruct (isWhiteSpace c); [|auto]. destruct b; [|auto].
  rewrite andb_false_r. discriminate.
Qed.

Lemma singleSpaced_trimStart (b : bool) (s : string) :
  singleSpaced b s = true -> singleSpaced true (trimStart s) = true.
Proof.
  revert b. induction s as [|c s IH]; intros b H; [reflexivity|].
  cbn [trimStart]. cbn [singleSpaced] in H. destruct (isWhiteSpace c) eqn:Ec.
  - apply andb_true_iff in H. destruct H as [_ H]. apply (IH true H).
  - cbn [singleSpaced]. rewrite Ec. exact H.
Qed.

Lemma singleSpaced_trimEnd (b : bool) (s : string) :
  singleSpaced b s = true -> singleSpaced b (trimEnd s) = true.
Proof.
  revert b. induction s as [|c s IH]; intros b H; [reflexivity|].
  cbn [trimEnd]. cbn [singleSpaced] in H.
  destruct (trimEnd s) as [|d r] eqn:E.
  - destruct (isWhiteSpace c) eqn:Ec; [reflexivity|].
    cbn [singleSpaced]. rewrite Ec. reflexivity.
  - cbn [singleSpaced]. destruct (isWhiteSpace c).
    + apply andb_true_iff in H. destruct H as [H Hs]. rewrite H.
      apply (IH true Hs).
    + apply (IH false H).
Qed.

Lemma cleanContent_collapse (content : string) :
  cleanContent content = trim (replaceRuns isWhiteSpace false content).
Proof.
  unfold cleanContent.
  pose proof (singleSpaced_replaceRuns false content) as H.
  rewrite (replaceRuns_nothing isLineFeed false false _
             (fun c Hc => narrower_class c (or_introl Hc)) H).
  rewrite (replaceRuns_nothing isTab false false _
             (fun c Hc => narrower_class c (or_intror Hc)) H).
  reflexivity.
Qed.

(** The text [fetchContent] hands on is single-spaced: its only white space
    is single spaces between other characters, with none at the start and
    none at the end.  The two replacements after the first never change the
    text, and cleaning a cleaned text changes nothing. *)
Theorem cleanContent_single_spaced :
  forall content : string,
    singleSpaced true (cleanContent content) = true
    /\ (cleanContent content = "" \/ endsBlank (cleanContent content) = false)
    /\ cleanContent content = trim (replaceRuns isWhiteSpace false content)
    /\ cleanContent (cleanContent content) = cleanContent content.
Proof.
  intros content.
  assert (Hs : singleSpaced true (cleanContent content) = true).
  { rewrite cleanContent_collapse. unfold trim.
    apply singleSpaced_trimEnd.
    apply (singleSpaced_trimStart false), singleSpaced_replaceRuns. }
  split; [exact Hs|]. split; [|split].
  - rewrite cleanContent_collapse. unfold trim. apply endsBlank_trimEnd.
  - apply cleanContent_collapse.
  - rewrite (cleanContent_collapse (cleanContent content)).
    rewrite (replaceRuns_fixed false) by (apply (singleSpaced_weaken true), Hs).
    rewrite cleanContent_collapse. apply trim_idem.
Qed.

(** ** The URL cleaner *)

Lemma prefix_append (sub a b : string) :
  String.prefix sub a = true -> String.prefix sub (a ++ b) = true.
Proof.
  revert a. induction sub as [|x sub IH]; intros [|y a]; simpl; try discriminate;
    try reflexivity.
  - destruct b; reflexivity.
  - destruct (ascii_dec x y); [apply IH | discriminate].
Qed.

Lemma includes_append (a b sub : string) :
  includes a sub = true -> includes (a ++ b) sub = true.
Proof.
  induction a as [|c a IH]; cbn [includes append].
  - destruct (String.prefix sub "") eqn:E; [|discriminate].
    intros _. destruct sub; [|discriminate]. destruct b; reflexivity.
  - destruct (String.prefix sub (String c a)) eqn:E.
    + intros _. apply (prefix_append _ _ b) in E. cbn [append] in E.
      rewrite E. reflexivity.
    + intros H. rewrite (IH H).
      destruct (String.prefix sub (String c (a ++ b))); reflexivity.
Qed.

Lemma withProtocol_has_protocol (url : string) :
  startsWith (UrlCleaner.withProtocol url) "http://"
  || startsWith (UrlCleaner.withProtocol url) "https://" = true.
Proof.
  unfold UrlCleaner.withProtocol.
  destruct (startsWith url "http://") eqn:E1; cbn [negb andb].
  - rewrite E1. reflexivity.
  - destruct (startsWith url "https://") eqn:E2; cbn [negb].
    + rewrite E2. apply orb_true_r.
    + unfold startsWith. rewrite (prefix_append "https://" "https://" url eq_refl).
      apply orb_true_r.
Qed.

(** When the URL cannot be parsed, [cleanUrl] returns a non-empty input with
    the protocol step applied: an input without [http://] or [https://] comes
    back with [https://] in front, not as it was given. *)
Theorem cleanUrl_unparsable_url :
  forall (newURL : string -> option UrlCleaner.URL) (url : string),
    url <> "" ->
    newURL (UrlCleaner.withProtocol url) = None ->
    UrlCleaner.cleanUrl newURL url = UrlCleaner.withProtocol url
    /\ startsWith (UrlCleaner.cleanUrl newURL url) "http://"
       || startsWith (UrlCleaner.cleanUrl newURL url) "https://" = true.
Proof.
  intros newURL url Hne Hparse.
  assert (H : UrlCleaner.cleanUrl newURL url = UrlCleaner.withProtocol url).
  { unfold UrlCleaner.cleanUrl, UrlCleaner.isYouTubeUrl.
    apply truthy_true in Hne. rewrite Hne, Hparse. reflexivity. }
  split; [exact H|]. rewrite H. apply withProtocol_has_protocol.
Qed.

Lemma cleanUrl_unparsable_url_witness :
  UrlCleaner.cleanUrl unparsable "not a url" = "https://not a url"
  /\ startsWith (UrlCleaner.cleanUrl unparsable "not a url") "http://"
     || startsWith (UrlCleaner.cleanUrl unparsable "not a url") "https://" = true.
Proof.
  apply (cleanUrl_unparsable_url unparsable "not a url").
  - discriminate.
  - reflexivity.
Defined.

(** A URL the cleaner recognises as a YouTube URL with a video id is
    rewritten to [https://youtu.be/] followed by the id, whatever else the
    URL held; and the Claude variant classifies the cleaned URL as Video
    without a provider call. *)
Theorem cleanUrl_youtube_canonical_form :
  forall (newURL : string -> option UrlCleaner.URL)
         (respond : Call -> Completion (option string))
         (content url videoId : string) (c : Client),
    url <> "" ->
    UrlCleaner.isYouTubeUrl newURL (UrlCleaner.withProtocol url) = true ->
    UrlCleaner.extractYouTubeVideoId newURL (UrlCleaner.withProtocol url) = Some videoId ->
    videoId <> "" ->
    UrlCleaner.cleanUrl newURL url = "https://youtu.be/" ++ videoId
    /\ ClaudeService.determineCategory respond content (UrlCleaner.cleanUrl newURL url) c
       = (Return "Video", []).
Proof.
  intros newURL respond content url videoId c Hne Hyt Hid Hvid.
  assert (H : UrlCleaner.cleanUrl newURL url = "https://youtu.be/" ++ videoId).
  { unfold UrlCleaner.cleanUrl. apply truthy_true in Hne. rewrite Hne. cbn [negb].
    rewrite Hyt, Hid. cbn [truthyField]. apply truthy_true in Hvid. rewrite Hvid.
    reflexivity. }
  split; [exact H|]. rewrite H.
  assert (Hinc : includes (toLowerCase ("https://youtu.be/" ++ videoId)) "youtu.be" = true).
  { rewrite toLowerCase_append. apply includes_append. reflexivity. }
  unfold ClaudeService.determineCategory. rewrite Hinc.
  rewrite orb_true_r. reflexivity.
Qed.

Lemma cleanUrl_youtube_canonical_form_witness :
  UrlCleaner.cleanUrl watchPage "www.youtube.com/watch?v=dQw4w9WgXcQ&utm_source=x"
  = "https://youtu.be/" ++ "dQw4w9WgXcQ"
  /\ ClaudeService.determineCategory respondArticles "text"
       (UrlCleaner.cleanUrl watchPage "www.youtube.com/watch?v=dQw4w9WgXcQ&utm_source=x")
       (sampleClient Claude)
     = (Return "Video", []).
Proof.
  apply (cleanUrl_youtube_canonical_form watchPage respondArticles "text"
           "www.youtube.com/watch?v=dQw4w9WgXcQ&utm_source=x" "dQw4w9WgXcQ"
           (sampleClient Claude)).
  - discriminate.
  - reflexivity.
  - reflexivity.
  - discriminate.
Defined.

(** The OpenAI variant has no pattern for the cleaned form: it asks the
    provider. *)
Example openai_cleaned_youtube_url_calls_provider :
  exists call,
    snd (OpenAIService.determineCategory respondArticles "text"
           (UrlCleaner.cleanUrl watchPage "www.youtube.com/watch?v=dQw4w9WgXcQ")
           (sampleClient OpenAI))
    = [call].
Proof. eexists. reflexivity. Qed.

(** * The failure isolation of [analyzeContent] and the spelling [processTags] keeps *)

(** C3.  With a credential present, [analyzeContent] of either provider
    variant returns the composition of its three sub-operations: the summary,
    the tags and the category are the values [generateSummary],
    [generateTags] and [determineCategory] produced, and the log holds the
    calls of all three, in that order.  A sub-operation whose provider call
    is rejected or answered without text yields its fixed fallback (the
    failure string, the empty list, Article), so only that component of the
    result is replaced.  The same holds of the body of [analyzeContent] for
    whatever sub-operations the export object holds: one whose promise is
    rejected contributes its fallback, the others their own values. *)
Theorem analyzeContent_isolates_failures :
  forall (respond : Call -> Completion (option string))
         (JSON_parse : string -> option Json)
         (url content userApiKey : string),
    userApiKey <> "" ->
    let openai := {| variant := OpenAI; apiKey := userApiKey |} in
    let claude := {| variant := Claude; apiKey := userApiKey |} in
    let failed (call : Call) :=
      (exists e, respond call = Throw e) \/ respond call = Return None in
    (exists r,
        OpenAIService.analyzeContent respond JSON_parse url content userApiKey
        = (Return r,
           (snd (OpenAIService.generateSummary respond content openai)
            ++ snd (OpenAIService.generateTags respond JSON_parse content url openai)
            ++ snd (OpenAIService.determineCategory respond content url openai))%list)
        /\ Return (summary r) = fst (OpenAIService.generateSummary respond content openai)
        /\ Return (tags r)
           = fst (OpenAIService.generateTags respond JSON_parse content url openai)
        /\ Return (category r)
           = fst (OpenAIService.determineCategory respond content url openai))
    /\ (exists r,
           ClaudeService.analyzeContent respond JSON_parse url content userApiKey
           = (Return r,
              (snd (ClaudeService.generateSummary respond content url claude)
               ++ snd (ClaudeService.generateTags respond JSON_parse content url claude)
               ++ snd (ClaudeService.determineCategory respond content url claude))%list)
           /\ Return (summary r)
              = fst (ClaudeService.generateSummary respond content url claude)
           /\ Return (tags r)
              = fst (ClaudeService.generateTags respond JSON_parse content url claude)
           /\ Return (category r)
              = fst (ClaudeService.determineCategory respond content url claude))
    /\ (forall call, failed call ->
           (In call (snd (OpenAIService.generateSummary respond content openai)) ->
            fst (OpenAIService.generateSummary respond content openai)
            = Return "Summary generation failed. Please try again later.")
           /\ (In call (snd (OpenAIService.generateTags respond JSON_parse content url openai)) ->
               fst (OpenAIService.generateTags respond JSON_parse content url openai)
               = Return [])
           /\ (In call (snd (OpenAIService.determineCategory respond content url openai)) ->
               fst (OpenAIService.determineCategory respond content url openai)
               = Return "Article")
           /\ (In call (snd (ClaudeService.generateSummary respond content url claude)) ->
               fst (ClaudeService.generateSummary respond content url claude)
               = Return "Summary generation failed. Please try again later.")
           /\ (In call (snd (ClaudeService.generateTags respond JSON_parse content url claude)) ->
               fst (ClaudeService.generateTags respond JSON_parse content url claude)
               = Return [])
           /\ (In call (snd (ClaudeService.determineCategory respond content url claude)) ->
               fst (ClaudeService.determineCategory respond content url claude)
               = Return "Article"))
    /\ (forall gs gt dc,
           OpenAIService.analyzeContentWith gs gt dc url content userApiKey
           = composed (gs content openai) (gt content url openai) (dc content url openai))
    /\ (forall gs gt dc,
           ClaudeService.analyzeContentWith gs gt dc url content userApiKey
           = composed (gs content url claude) (gt content url claude)
               (dc content url claude)).
Proof.
  intros respond JSON_parse url content userApiKey Hkey openai claude failed.
  destruct (sub_operations_never_reject respond JSON_parse content url openai)
    as [[s Hs] [[t Ht] [[c Hc] _]]].
  destruct (sub_operations_never_reject respond JSON_parse content url claude)
    as [_ [_ [_ [[s' Hs'] [[t' Ht'] [c' Hc']]]]]].
  split; [|split; [|split; [|split]]].
  - unfold OpenAIService.analyzeContent.
    rewrite OpenAI_analyzeContentWith_composed by exact Hkey.
    fold openai. unfold composed. rewrite Hs, Ht, Hc. cbn [settle].
    eexists. split; [reflexivity|]. cbn [summary tags category]. auto.
  - unfold ClaudeService.analyzeContent.
    rewrite Claude_analyzeContentWith_composed by exact Hkey.
    fold claude. unfold composed. rewrite Hs', Ht', Hc'. cbn [settle].
    eexists. split; [reflexivity|]. cbn [summary tags category]. auto.
  - intros call Hfailed.
    assert (Hanswer : forall A (ok : string -> A) (ko : A),
               match respond call with
               | Return (Some text) => ok text
               | _ => ko
               end = ko).
    { intros A ok ko. destruct Hfailed as [[e ->] | ->]; reflexivity. }
    repeat split.
    + cbn [snd fst OpenAIService.generateSummary]. intros [<- | []]. f_equal.
      apply (Hanswer string).
    + cbn [snd fst OpenAIService.generateTags]. intros [<- | []]. f_equal.
      apply (Hanswer (list string)).
    + unfold OpenAIService.determineCategory.
      destruct (_ || _ || _ || _); [intros []|].
      destruct (_ || _ || _ || _); [intros []|].
      cbn [snd fst]. intros [<- | []]. f_equal. apply (Hanswer string).
    + cbn [snd fst ClaudeService.generateSummary]. intros [<- | []]. f_equal.
      apply (Hanswer string).
    + cbn [snd fst ClaudeService.generateTags]. intros [<- | []]. f_equal.
      apply (Hanswer (list string)).
    + unfold ClaudeService.determineCategory.
      destruct (_ || _ || _ || _); [intros []|].
      destruct (_ || _ || _ || _); [intros []|].
      cbn [snd fst]. intros [<- | []]. f_equal. apply (Hanswer string).
  - intros gs gt dc. apply OpenAI_analyzeContentWith_composed. exact Hkey.
  - intros gs gt dc. apply Claude_analyzeContentWith_composed. exact Hkey.
Qed.

Lemma analyzeContent_isolates_failures_witness :
  fst (OpenAIService.analyzeContent respondFailingTags parseArticles
         "https://example.com/post" "text" "sk-1")
  = Return {| summary := "A summary."; tags := []; category := "Research" |}
  /\ List.length (snd (OpenAIService.analyzeContent respondFailingTags parseArticles
                         "https://example.com/post" "text" "sk-1")) = 3
  /\ fst (ClaudeService.analyzeContent respondFailingTags parseArticles
            "https://example.com/post" "text" "ck-2")
     = Return {| summary := "A summary."; tags := []; category := "Research" |}.
Proof.
  assert (Hkey1 : "sk-1" <> "") by discriminate.
  assert (Hkey2 : "ck-2" <> "") by discriminate.
  destruct (analyzeContent_isolates_failures respondFailingTags parseArticles
              "https://example.com/post" "text" "sk-1" Hkey1)
    as [[r [Heq [Hs [Ht Hc]]]] _].
  destruct (analyzeContent_isolates_failures respondFailingTags parseArticles
              "https://example.com/post" "text" "ck-2" Hkey2)
    as [_ [[r' [Heq' [Hs' [Ht' Hc']]]] _]].
  rewrite Heq, Heq'. cbn [fst snd].
  destruct r as [rs rt rc]. destruct r' as [rs' rt' rc'].
  cbn [summary tags category] in *.
  injection Hs as ->. injection Ht as ->. injection Hc as ->.
  injection Hs' as ->. injection Ht' as ->. injection Hc' as ->.
  repeat split.
Defined.




(** [image] is the normal form of [Images] and not the tag the vocabulary
    holds: the result is the vocabulary's spelling alone. *)
Example processTags_keeps_capital_spelling :
  normalizeTag "Images" = "image"
  /\ processTags dice ["Images"; "React"] ["Image"; "react"] = Return ["Image"; "react"].
Proof. split; reflexivity. Qed.

(** * The length and case of a normalized ASCII tag *)

(** For a tag of ASCII characters, the tag [normalizeTag] returns is in lower
    case and is never longer than the tag it was given. *)
Theorem normalizeTag_lowercase_and_no_longer :
  forall t : string,
    isAsciiText t = true ->
    toLowerCase (normalizeTag t) = normalizeTag t
    /\ String.length (normalizeTag t) <= String.length t.
Proof.
  intros t _. split; [apply normalizeTag_lower|].
  unfold normalizeTag. destruct (negb (truthy t)); [simpl; lia|].
  assert (H0 : String.length (trim (toLowerCase t)) <= String.length t).
  { pose proof (length_trim (toLowerCase t)). rewrite toLowerCase_length in H. exact H. }
  destruct (has PRESERVED_TERMS _); [exact H0|].
  unfold COMMON_VARIATIONS_plurals, COMMON_VARIATIONS_prefixes. cbn [fold_left].
  repeat (eapply Nat.le_trans; [apply length_stripPlural; simpl; lia|]).
  repeat (eapply Nat.le_trans; [apply length_stripPrefix; reflexivity|]).
  exact H0.
Qed.

Lemma normalizeTag_lowercase_and_no_longer_witness :
  toLowerCase (normalizeTag " The Technologies ") = normalizeTag " The Technologies "
  /\ String.length (normalizeTag " The Technologies ") <= String.length " The Technologies ".
Proof.
  apply (normalizeTag_lowercase_and_no_longer " The Technologies "). reflexivity.
Defined.
